(** * dbflib: the dynamically linked binary file library

    A shallow embedding of [src/lib/dbflib.hpp] (namespace [dbflib]):
    the container header [DB_FILE], the link record [DB_FILE_LINK], the
    builder [DBFileBuilder] and the loader [DBFileReader], followed by the
    properties of the format that the library's description states.

    Conventions of the embedding.
    - Fixed-width unsigned integers are [Z] with the wrap-around written
      out ([u8], [u16], [u32], [u64]); [size_t] and pointers are 64 bits
      wide, as the 8-byte link slot of the format requires.
    - Buffers ([std::vector<uint8_t>], the reader's memory) are
      [list byte]; typed accesses through [reinterpret_cast] are
      little-endian loads and stores at the field offsets of the struct.
    - [std::unordered_map<BlockId, BlockSize>] is a [gmap Z Z].
    - A member function is a computation in the monad [M], which threads
      the object state and records a thrown [std::runtime_error]; the
      state reached before the throw is kept, as in C++.  An access
      outside the storage the model knows about has no defined behaviour
      in C++ and is the outcome [Undefined].
    - The preprocessor symbol [DEBUG] is a boolean parameter.
    - [sizeof(DBFileBuilder)] depends on the standard library of the
      compiler; it is a parameter of the constructor. *)

From Stdlib Require Import ZArith Lia List.
From stdpp Require Import base option list gmap.
From coqutil Require Import Byte Word.LittleEndianList.

Local Open Scope Z_scope.

(** ** Machine integers *)

Definition wrap (bits : Z) (z : Z) : Z := z mod 2 ^ bits.
Definition u8 : Z -> Z := wrap 8.
Definition u16 : Z -> Z := wrap 16.
Definition u32 : Z -> Z := wrap 32.
Definition u64 : Z -> Z := wrap 64.

Definition INT32_MAX : Z := 2147483647.
Definition SIZE_MAX : Z := 2 ^ 64 - 1.

(** ** Constants of the format *)

Definition DB_FILE_MAGIC : Z := 0x0d0a46424424.
Definition DB_FILE_MIN_VERSION : Z := 0x10.
Definition DB_FILE_CURR_VERSION : Z := 0x10.
(** [DB_FILE_VERSION_FEATURE::LINKING] *)
Definition LINKING : Z := 0x10.

(** ** Layout of [struct DB_FILE] and [struct DB_FILE_LINK]

    A field is its byte offset and its size.  Every field of [DB_FILE]
    is naturally aligned at the end of the previous one, so the struct
    has no padding. *)

Record field : Set := mkField { f_off : nat; f_size : nat }.

Definition f_magic : field := mkField 0 8.
Definition f_version : field := mkField 8 1.
Definition f_flags : field := mkField 9 1.
Definition f_links_count : field := mkField 10 2.
Definition f_links_table_offset : field := mkField 12 4.
Definition f_start_offset : field := mkField 16 4.
Definition f_data_size : field := mkField 20 4.
Definition f_file_size : field := mkField 24 4.

Definition f_end (f : field) : nat := (f_off f + f_size f)%nat.

(** [sizeof(DB_FILE)], [offsetof(DB_FILE, file_size)], [sizeof(size_t)],
    [sizeof(DB_FILE_LINK)], [sizeof(void* )] *)
Definition sizeof_DB_FILE : Z := Z.of_nat (f_end f_file_size).
Definition offsetof_file_size : Z := Z.of_nat (f_off f_file_size).
Definition sizeof_size_t : Z := 8.
Definition sizeof_DB_FILE_LINK : Z := 8.
Definition sizeof_pointer : nat := 8.

Record DB_FILE_LINK : Set := mkLink { origin : Z; destination : Z }.

(** The header as the typed view [DB_FILE*] shows it. *)
Record DB_FILE : Set := mkHeader {
  magic : Z;
  version : Z;
  flags : Z;
  links_count : Z;
  links_table_offset : Z;
  start_offset : Z;
  data_size : Z;
  file_size : Z
}.

(** ** Byte memory *)

(** The unsigned little-endian value of the [n] bytes at offset [off]. *)
Definition peek (m : list byte) (off n : nat) : Z :=
  le_combine (take n (drop off m)).

(** The bytes [bs] written over [m] from offset [off] on. *)
Definition poke (m : list byte) (off : nat) (bs : list byte) : list byte :=
  list_inserts off bs m.

Definition get_field (m : list byte) (f : field) : Z :=
  peek m (f_off f) (f_size f).

Definition set_field (m : list byte) (f : field) (v : Z) : list byte :=
  poke m (f_off f) (le_split (f_size f) v).

(** [*reinterpret_cast<DB_FILE*>(m)] *)
Definition Header (m : list byte) : DB_FILE :=
  {| magic := get_field m f_magic;
     version := get_field m f_version;
     flags := get_field m f_flags;
     links_count := get_field m f_links_count;
     links_table_offset := get_field m f_links_table_offset;
     start_offset := get_field m f_start_offset;
     data_size := get_field m f_data_size;
     file_size := get_field m f_file_size |}.

(** The object representation of a link record and of a [std::vector] of
    them. *)
Definition link_bytes (l : DB_FILE_LINK) : list byte :=
  le_split 4 (origin l) ++ le_split 4 (destination l).

Definition links_bytes (ls : list DB_FILE_LINK) : list byte :=
  concat (map link_bytes ls).

(** ** Exceptions and the state monad of a member function *)

Inductive error : Set :=
| FileTooBig              (* "file too big" *)
| BuilderAlreadyLinked    (* "builder already linked!" *)
| LinkAfterBlockEnd       (* "trying to create a link after the end of a block" *)
| InvalidBlock            (* "invalid block" *)
| FileTooSmall            (* "invalid file: file too small" *)
| BadMagic                (* "invalid file: bad magic" *)
| VersionTooLow           (* "invalid file: version too low" *)
| ReadFileTooSmall        (* "invalid file: read file too small" *)
| StartOffsetAfterEnd     (* "invalid file: start offset after file end" *)
| LinkAfterEnd.           (* "invalid file: link after end file" *)

Inductive result (A : Type) : Type :=
| Ok (a : A)
| Throw (e : error)
| Undefined.
Arguments Ok {A} a.
Arguments Throw {A} e.
Arguments Undefined {A}.

Definition M (S A : Type) : Type := S -> result A * S.

Definition ret {S A} (a : A) : M S A := fun s => (Ok a, s).
Definition throw {S A} (e : error) : M S A := fun s => (Throw e, s).
Definition undefined {S A} : M S A := fun s => (Undefined, s).
Definition get {S} : M S S := fun s => (Ok s, s).
Definition put {S} (s : S) : M S unit := fun _ => (Ok tt, s).
Definition bind {S A B} (m : M S A) (k : A -> M S B) : M S B :=
  fun s =>
    match m s with
    | (Ok a, s') => k a s'
    | (Throw e, s') => (Throw e, s')
    | (Undefined, s') => (Undefined, s')
    end.

(** [if (c) throw std::runtime_error(e);] *)
Definition throw_if {S} (c : bool) (e : error) : M S unit :=
  if c then throw e else ret tt.

Notation "'let*' x ':=' m 'in' k" := (bind m (fun x => k))
  (at level 10, x name, m at level 100, k at level 200).
Notation "m ';;;' k" := (bind m (fun _ => k))
  (at level 100, k at level 200, right associativity).

(** ** DBFileBuilder *)

Record DBFileBuilder : Type := mkBuilder {
  linked : bool;
  data : list byte;
  blocks : gmap Z Z;
  links : list DB_FILE_LINK
}.

Definition set_linked (v : bool) (b : DBFileBuilder) : DBFileBuilder :=
  mkBuilder v (data b) (blocks b) (links b).
Definition set_data (d : list byte) (b : DBFileBuilder) : DBFileBuilder :=
  mkBuilder (linked b) d (blocks b) (links b).
Definition set_blocks (m : gmap Z Z) (b : DBFileBuilder) : DBFileBuilder :=
  mkBuilder (linked b) (data b) m (links b).
Definition set_links (l : list DB_FILE_LINK) (b : DBFileBuilder) : DBFileBuilder :=
  mkBuilder (linked b) (data b) (blocks b) l.

(** [data.size()] *)
Definition data_size_of (b : DBFileBuilder) : Z := Z.of_nat (length (data b)).

(** The constructor: the buffer is resized to [sizeof(DBFileBuilder)]
    zero bytes and that size is stored in [start_offset]. *)
Definition DBFileBuilder_new (sizeof_DBFileBuilder : Z) : DBFileBuilder :=
  let d := replicate (Z.to_nat sizeof_DBFileBuilder) Byte.x00 in
  {| linked := false;
     data := set_field d f_start_offset (u32 (Z.of_nat (length d)));
     blocks := ∅;
     links := [] |}.

(** [data.resize(n)] *)
Definition resize (d : list byte) (n : Z) : list byte :=
  take (Z.to_nat n) d ++ replicate (Z.to_nat n - length d) Byte.x00.

Definition GetBlock (id : Z) : M DBFileBuilder Z :=
  let* b := get in
  if id >? data_size_of b then throw InvalidBlock else ret id.

Definition GetBlockSize (b : DBFileBuilder) (id : Z) : Z :=
  match blocks b !! id with
  | None => 0
  | Some size => size
  end.

Section Builder.
(** Whether the translation unit is compiled with [DEBUG] defined. *)
Variable DEBUG : bool.

Definition AssertNotLinked : M DBFileBuilder unit :=
  let* b := get in
  throw_if (DEBUG && linked b) BuilderAlreadyLinked ;;;
  put (set_linked false b).

(** [BlockId CreateBlock(void* buffer, size_t len)]; the memory behind
    the pointer is the list [buffer], which "should contain at least
    len bytes". *)
Definition CreateBlock (buffer : list byte) (len : Z) : M DBFileBuilder Z :=
  AssertNotLinked ;;;
  let* b := get in
  let id := data_size_of b in
  if len =? 0 then ret (u32 id)
  else
    throw_if (u64 (id + len) >? INT32_MAX) FileTooBig ;;;
    if len >? Z.of_nat (length buffer) then undefined
    else
      put (set_blocks (<[u32 id := u32 len]> (blocks b))
             (set_data (data b ++ take (Z.to_nat len) buffer) b)) ;;;
      ret (u32 id).

(** [std::pair<BlockId, BlockType*> CreateBlock(const size_t len)]; the
    pointer of the pair is [data.data() + id], so the block id stands
    for both. *)
Definition CreateBlockInPlace (len : Z) : M DBFileBuilder Z :=
  AssertNotLinked ;;;
  let* b := get in
  let id := data_size_of b in
  if len =? 0 then ret (u32 id)
  else
    throw_if (u64 (id + len) >? INT32_MAX) FileTooBig ;;;
    put (set_blocks (<[u32 id := u32 len]> (blocks b))
           (set_data (resize (data b) (u64 (id + len))) b)) ;;;
    ret (u32 id).

Definition CreateLink (blockOrigin originOff blockDestination destinationOff : Z)
  : M DBFileBuilder unit :=
  AssertNotLinked ;;;
  let* b := get in
  let ors := GetBlockSize b blockOrigin in
  let dss := GetBlockSize b blockDestination in
  throw_if ((u32 (originOff + 8) >? ors) || (destinationOff >? dss))
    LinkAfterBlockEnd ;;;
  put (set_links (links b ++ [mkLink (u32 (blockOrigin + originOff))
                                     (u32 (blockDestination + destinationOff))]) b).
End Builder.

(** The header fields that [Build] assigns, in the order of the source;
    [links_count] receives a [uint32_t] and keeps its low 16 bits. *)
Definition finalize_header (d : list byte) (linksOffset count dataSize : Z)
  : list byte :=
  let d := set_field d f_magic DB_FILE_MAGIC in
  let d := set_field d f_version DB_FILE_CURR_VERSION in
  let d := set_field d f_links_table_offset (u32 linksOffset) in
  let d := set_field d f_links_count (u32 count) in
  let d := set_field d f_data_size (u32 dataSize) in
  set_field d f_file_size (u32 (Z.of_nat (length d))).

(** [DB_FILE* Build()].  The header is read and written through
    [Header()], a [DB_FILE*] into the buffer: this needs the buffer to
    hold a whole [DB_FILE]. *)
Definition Build : M DBFileBuilder DB_FILE :=
  let* b := get in
  if linked b then ret (Header (data b))
  else if data_size_of b <? sizeof_DB_FILE then undefined
  else
    put (set_linked true b) ;;;
    let dataSize := u64 (data_size_of b - get_field (data b) f_start_offset) in
    let linksOffset := data_size_of b in
    let* d := match links b with
              | [] => ret (data b)
              | _ :: _ =>
                  let len := u64 (sizeof_DB_FILE_LINK * Z.of_nat (length (links b))) in
                  throw_if (u64 (linksOffset + len) >? INT32_MAX) FileTooBig ;;;
                  ret (data b ++ links_bytes (links b))
              end in
    let d := finalize_header d linksOffset (Z.of_nat (length (links b))) dataSize in
    put (set_data d (set_linked true b)) ;;;
    ret (Header d).

(** [void WriteToFile(path)]: the content of the written file, the first
    [file_size] bytes of the buffer. *)
Definition WriteToFile : M DBFileBuilder (list byte) :=
  let* f := Build in
  let* b := get in
  if file_size f >? data_size_of b then undefined
  else ret (take (Z.to_nat (file_size f)) (data b)).

(** ** DBFileReader

    The reader works on the memory behind [file], a [list byte] whose
    offset 0 is the address [base]. *)

(** A typed read or write of [n] bytes at offset [off] of the buffer. *)
Definition in_bounds (m : list byte) (off : Z) (n : nat) : bool :=
  (0 <=? off) && (off + Z.of_nat n <=? Z.of_nat (length m)).

Definition load (off : Z) (n : nat) : M (list byte) Z :=
  let* m := get in
  if in_bounds m off n then ret (peek m (Z.to_nat off) n) else undefined.

Definition store (off : Z) (n : nat) (v : Z) : M (list byte) unit :=
  let* m := get in
  if in_bounds m off n then put (poke m (Z.to_nat off) (le_split n v))
  else undefined.

Definition load_field (f : field) : M (list byte) Z :=
  load (Z.of_nat (f_off f)) (f_size f).

(** The first test of [ValidateAndLink]:
    [len && len < offsetof(DB_FILE, file_size) + sizeof(sizeof(file->file_size))];
    the inner [sizeof] has type [size_t]. *)
Definition file_too_small (len : Z) : bool :=
  negb (len =? 0) && (len <? offsetof_file_size + sizeof_size_t).

(** [links_count] is a [uint16_t]: the body of the loop over the link
    records runs fewer than [2^16] times. *)
Definition max_links : nat := Z.to_nat (2 ^ 16).

Section Reader.
(** The address of the first byte of the buffer. *)
Variable base : Z.

(** The [for] loop over the link records, from index [i] on; [links]
    is the offset of the table, read once before the loop, while
    [links_count] and [file_size] are read from the header at each
    use. *)
Fixpoint link_loop (fuel : nat) (links : Z) (i : Z) : M (list byte) unit :=
  let* count := load_field f_links_count in
  if i <? count then
    match fuel with
    | O => undefined
    | S fuel =>
        let link := links + sizeof_DB_FILE_LINK * i in
        let* o := load link 4 in
        let* size := load_field f_file_size in
        throw_if (o >? size) LinkAfterEnd ;;;
        let* d := load (link + 4) 4 in
        let* size := load_field f_file_size in
        throw_if (d >? size) LinkAfterEnd ;;;
        store o sizeof_pointer (u64 (base + d)) ;;;
        link_loop fuel links (u64 (i + 1))
    end
  else ret tt.

Definition ValidateAndLink (len : Z) : M (list byte) unit :=
  throw_if (file_too_small len) FileTooSmall ;;;
  let* m := load_field f_magic in
  throw_if (negb (m =? DB_FILE_MAGIC)) BadMagic ;;;
  let* v := load_field f_version in
  throw_if (v <? DB_FILE_MIN_VERSION) VersionTooLow ;;;
  (if len =? 0 then ret tt
   else
     let* size := load_field f_file_size in
     throw_if (size >? len) ReadFileTooSmall) ;;;
  let* start := load_field f_start_offset in
  let* size := load_field f_file_size in
  throw_if (start >? size) StartOffsetAfterEnd ;;;
  let* v := load_field f_version in
  if v >=? LINKING then
    let* links := load_field f_links_table_offset in
    link_loop max_links links 0
  else ret tt.

(** [DBFileReader(const std::filesystem::path&)]: the whole file is
    read into [readData] and validated with its length. *)
Definition DBFileReader_path (content : list byte) : result unit * list byte :=
  ValidateAndLink (Z.of_nat (length content)) content.

(** [DBFileReader(void* buffer, size_t length = 0)] *)
Definition DBFileReader_buffer (buffer : list byte) (length : Z)
  : result unit * list byte :=
  ValidateAndLink length buffer.
End Reader.

(** [GetStart()]: the offset of the payload from the start of the buffer. *)
Definition GetStart (m : list byte) : Z := start_offset (Header m).


(** * Sessions, invariants and sample inputs *)

Definition disjoint_fields (f g : field) : Prop :=
  (f_end f <= f_off g \/ f_end g <= f_off f)%nat.

(** A container that holds a header and nothing else: 28 bytes, no
    payload, no link. *)
Definition header_only_container : list byte :=
  finalize_header (set_field (replicate 28 Byte.x00) f_start_offset 28) 28 0 0.

(** A container of 40 bytes: the header, 4 payload bytes and one link
    record whose origin is [file_size] itself. *)
Definition overhanging_link_container : list byte :=
  finalize_header
    (set_field (replicate 28 Byte.x00) f_start_offset 28
     ++ replicate 4 Byte.x00 ++ link_bytes (mkLink 40 0))
    32 1 4.

(** [for (n times) m;] in the code that drives a builder. *)
Fixpoint times {S} (n : nat) (m : M S unit) : M S unit :=
  match n with
  | O => ret tt
  | S n => m ;;; times n m
  end.

(** The calls a client makes on a builder before it writes the file. *)
Inductive call : Type :=
| Call_CreateBlock (buffer : list byte) (len : Z)
| Call_CreateBlockInPlace (len : Z)
| Call_CreateLink (blockOrigin originOff blockDestination destinationOff : Z)
| Call_Build.

Definition run_call (DEBUG : bool) (c : call) : M DBFileBuilder unit :=
  match c with
  | Call_CreateBlock buffer len => CreateBlock DEBUG buffer len ;;; ret tt
  | Call_CreateBlockInPlace len => CreateBlockInPlace DEBUG len ;;; ret tt
  | Call_CreateLink bo o bd d => CreateLink DEBUG bo o bd d
  | Call_Build => Build ;;; ret tt
  end.

Fixpoint run_calls (DEBUG : bool) (cs : list call) : M DBFileBuilder unit :=
  match cs with
  | [] => ret tt
  | c :: cs => run_call DEBUG c ;;; run_calls DEBUG cs
  end.

(** The build-time bounds of a call on the builder [b], in unbounded
    integers: a block keeps the buffer within [INT32_MAX] bytes, a link
    has its 8-byte slot inside the origin block and its destination
    inside the destination block, the destination block id being an
    offset of the buffer, as the ids that [CreateBlock] returns are. *)
Definition call_in_bounds (b : DBFileBuilder) (c : call) : Prop :=
  match c with
  | Call_CreateBlock buffer len =>
      0 <= len <= Z.of_nat (length buffer) /\ data_size_of b + len <= INT32_MAX
  | Call_CreateBlockInPlace len =>
      0 <= len /\ data_size_of b + len <= INT32_MAX
  | Call_CreateLink bo o bd d =>
      0 <= o /\ o + 8 <= GetBlockSize b bo /\
      0 <= d <= GetBlockSize b bd /\ 0 <= bd <= data_size_of b
  | Call_Build =>
      data_size_of b + 8 * Z.of_nat (length (links b)) <= INT32_MAX
  end.

Fixpoint session_in_bounds (DEBUG : bool) (b : DBFileBuilder) (cs : list call)
  : Prop :=
  match cs with
  | [] => True
  | c :: cs =>
      call_in_bounds b c /\ session_in_bounds DEBUG (snd (run_call DEBUG c b)) cs
  end.

(** The store of one iteration of the reader's loop, and the stores of
    the whole loop over the records [ls], in order. *)
Definition resolve_link (base : Z) (m : list byte) (l : DB_FILE_LINK) : list byte :=
  poke m (Z.to_nat (origin l)) (le_split sizeof_pointer (u64 (base + destination l))).

Definition resolve_links (base : Z) (ls : list DB_FILE_LINK) (m : list byte)
  : list byte :=
  fold_left (resolve_link base) ls m.

(** The byte [i] lies in the 8-byte slot of the link [l]. *)
Definition in_slot (l : DB_FILE_LINK) (i : Z) : Prop :=
  origin l <= i < origin l + 8.

Definition slots_disjoint (l l' : DB_FILE_LINK) : Prop :=
  origin l + 8 <= origin l' \/ origin l' + 8 <= origin l.

(** Every link of a builder anchors its slot in the payload, between
    [lo] and [hi], and points into the buffer. *)
Definition link_ok (lo hi : Z) (l : DB_FILE_LINK) : Prop :=
  lo <= origin l /\ origin l + 8 <= hi /\ 0 <= destination l <= hi.

(** A finalized buffer: header, payload from [sz] to [lo], and the
    table of the links [ls] from [lo] to the end. *)
Record container (sz lo : Z) (ls : list DB_FILE_LINK) (m : list byte) : Prop :=
  mkContainer {
  c_sz : sizeof_DB_FILE <= sz <= lo;
  c_length : Z.of_nat (length m) = lo + 8 * Z.of_nat (length ls);
  c_max : Z.of_nat (length m) <= INT32_MAX;
  c_magic : get_field m f_magic = DB_FILE_MAGIC;
  c_version : get_field m f_version = DB_FILE_CURR_VERSION;
  c_count : get_field m f_links_count = u16 (Z.of_nat (length ls));
  c_offset : get_field m f_links_table_offset = lo;
  c_start : get_field m f_start_offset = sz;
  c_file_size : get_field m f_file_size = Z.of_nat (length m);
  c_records : drop (Z.to_nat lo) m = links_bytes ls;
  c_links : Forall (link_ok sz lo) ls
}.

(** The invariant of a builder made by [DBFileBuilder_new sz]. *)
Record wf (sz : Z) (b : DBFileBuilder) : Prop := mkWf {
  wf_sz : sizeof_DB_FILE <= sz;
  wf_size : sz <= data_size_of b <= INT32_MAX;
  wf_start : get_field (data b) f_start_offset = sz;
  wf_blocks : forall id size,
      blocks b !! id = Some size ->
      sz <= id /\ 0 < size /\ id + size <= data_size_of b;
  wf_links : Forall (link_ok sz (data_size_of b)) (links b)
}.

(** Once [linked] is set by a successful [Build], the buffer is the
    finalized container of the links. *)
Definition wf_linked (sz : Z) (b : DBFileBuilder) : Prop :=
  linked b = true ->
  exists lo, container sz lo (links b) (data b) /\ lo <= data_size_of b.

(** [m'] differs from [m] between the offsets [sz] and [lo] at most. *)
Definition frame (sz lo : Z) (m m' : list byte) : Prop :=
  length m' = length m /\
  take (Z.to_nat sz) m' = take (Z.to_nat sz) m /\
  drop (Z.to_nat lo) m' = drop (Z.to_nat lo) m.

(** The scenario of the description: a 16-byte block A, an 8-byte block
    B and a link from the start of A to the start of B. *)
Definition scenario_calls : list call :=
  [ Call_CreateBlock (replicate 16 Byte.x01) 16;
    Call_CreateBlock (replicate 8 Byte.x02) 8;
    Call_CreateLink 112 0 128 0 ].

Definition file_of (r : result (list byte) * DBFileBuilder) : list byte :=
  match fst r with
  | Ok f => f
  | _ => []
  end.

(** No two recorded blocks share a byte. *)
Definition blocks_disjoint (b : DBFileBuilder) : Prop :=
  forall id1 size1 id2 size2,
    blocks b !! id1 = Some size1 -> blocks b !! id2 = Some size2 ->
    id1 <> id2 -> id1 + size1 <= id2 \/ id2 + size2 <= id1.

(** A link record that the loop of the reader accepts for a file of
    [size] bytes whose table starts at [lo]: both offsets pass the
    tests against [file_size], and the slot lies after the header and
    before the table. *)
Definition record_ok (lo size : Z) (l : DB_FILE_LINK) : Prop :=
  sizeof_DB_FILE <= origin l /\ origin l + 8 <= lo /\ origin l <= size /\
  0 <= destination l <= size.

(** A link record that the loop refuses. *)
Definition record_bad (size : Z) (l : DB_FILE_LINK) : Prop :=
  0 <= origin l < 2 ^ 32 /\ 0 <= destination l < 2 ^ 32 /\
  (origin l > size \/ destination l > size).

(** A memory that passes the tests of the reader on the header and
    whose link table, the records [ls], starts at [lo] and ends the
    memory. *)
Record loadable (lo : Z) (ls : list DB_FILE_LINK) (m : list byte) : Prop :=
  mkLoadable {
  ld_table : sizeof_DB_FILE <= lo;
  ld_length : Z.of_nat (length m) = lo + 8 * Z.of_nat (length ls);
  ld_magic : get_field m f_magic = DB_FILE_MAGIC;
  ld_version : DB_FILE_MIN_VERSION <= get_field m f_version;
  ld_start : get_field m f_start_offset <= get_field m f_file_size;
  ld_count : get_field m f_links_count = Z.of_nat (length ls);
  ld_offset : get_field m f_links_table_offset = lo;
  ld_records : drop (Z.to_nat lo) m = links_bytes ls
}.

(** * Properties *)

(** ** Byte memory *)

Section Memory.
Implicit Types (m bs : list byte) (off n i : nat).

Lemma length_poke m off bs : length (poke m off bs) = length m.
Proof. apply length_inserts. Qed.

Lemma lookup_poke_in m off bs i :
  (off <= i < off + length bs)%nat -> (i < length m)%nat ->
  poke m off bs !! i = bs !! (i - off)%nat.
Proof. intros. apply list_lookup_inserts; lia. Qed.

Lemma lookup_poke_out m off bs i :
  (i < off \/ off + length bs <= i)%nat -> poke m off bs !! i = m !! i.
Proof.
  intros [?|?]; [apply list_lookup_inserts_lt|apply list_lookup_inserts_ge]; lia.
Qed.

Lemma slice_poke_same m off bs :
  (off + length bs <= length m)%nat ->
  take (length bs) (drop off (poke m off bs)) = bs.
Proof.
  intros Hin. apply list_eq. intros i.
  destruct (decide (i < length bs)%nat) as [Hi|Hi].
  - rewrite lookup_take_lt, lookup_drop by lia.
    rewrite lookup_poke_in by lia. f_equal. lia.
  - rewrite lookup_take_ge by lia. symmetry. apply lookup_ge_None. lia.
Qed.

Lemma slice_poke_other m off bs off' n :
  (off' + n <= off \/ off + length bs <= off')%nat ->
  take n (drop off' (poke m off bs)) = take n (drop off' m).
Proof.
  intros Hd. apply list_eq. intros i.
  destruct (decide (i < n)%nat) as [Hi|Hi].
  - rewrite !lookup_take_lt, !lookup_drop by lia.
    apply lookup_poke_out. lia.
  - rewrite !lookup_take_ge by lia. reflexivity.
Qed.

Lemma drop_poke_below m off bs k :
  (off + length bs <= k)%nat -> drop k (poke m off bs) = drop k m.
Proof.
  intros Hk. apply list_eq. intros i. rewrite !lookup_drop.
  apply lookup_poke_out. lia.
Qed.

Lemma peek_poke_same m off n v :
  (off + n <= length m)%nat ->
  peek (poke m off (le_split n v)) off n = v mod 2 ^ (Z.of_nat n * 8).
Proof.
  intros Hin. unfold peek.
  rewrite <- (length_le_split n v) at 1.
  rewrite slice_poke_same by (rewrite length_le_split; lia).
  apply le_combine_split.
Qed.

Lemma peek_poke_other m off bs off' n :
  (off' + n <= off \/ off + length bs <= off')%nat ->
  peek (poke m off bs) off' n = peek m off' n.
Proof. intros Hd. unfold peek. now rewrite slice_poke_other. Qed.

Lemma peek_bound m off n : 0 <= peek m off n < 2 ^ (8 * Z.of_nat n).
Proof.
  unfold peek.
  pose proof (le_combine_bound (take n (drop off m))) as Hb.
  assert (length (take n (drop off m)) <= n)%nat by (rewrite length_take; lia).
  split; [lia|].
  eapply Z.lt_le_trans; [apply Hb|].
  apply Z.pow_le_mono_r; lia.
Qed.

Lemma peek_app_l m m' off n :
  (off + n <= length m)%nat -> peek (m ++ m') off n = peek m off n.
Proof.
  intros Hin. unfold peek.
  rewrite drop_app_le by lia. rewrite take_app_le; [reflexivity|].
  rewrite length_drop. lia.
Qed.
End Memory.

(** ** Fields of the header *)

Lemma length_set_field m f v : length (set_field m f v) = length m.
Proof. apply length_poke. Qed.

Lemma get_set_field_same m f v :
  (f_end f <= length m)%nat ->
  get_field (set_field m f v) f = v mod 2 ^ (Z.of_nat (f_size f) * 8).
Proof. intros. apply peek_poke_same. assumption. Qed.

Lemma get_set_field_other m f g v :
  disjoint_fields f g -> get_field (set_field m f v) g = get_field m g.
Proof.
  intros Hd. apply peek_poke_other. rewrite length_le_split.
  unfold disjoint_fields, f_end in Hd. lia.
Qed.

Lemma drop_set_field m f v k :
  (f_end f <= k)%nat -> drop k (set_field m f v) = drop k m.
Proof.
  intros. apply drop_poke_below. rewrite length_le_split. assumption.
Qed.

Lemma get_field_bound m f : 0 <= get_field m f < 2 ^ (8 * Z.of_nat (f_size f)).
Proof. apply peek_bound. Qed.

Lemma get_field_app m m' f :
  (f_end f <= length m)%nat -> get_field (m ++ m') f = get_field m f.
Proof. intros. apply peek_app_l. assumption. Qed.

(** ** The member functions, flattened *)

Ltac run_monad :=
  cbv [bind get put ret throw throw_if undefined].

Ltac case_ifs :=
  repeat match goal with
         | |- context [if ?c then _ else _] => destruct c eqn:?; try reflexivity
         end.

Lemma bind_ok {S A B} (m : M S A) (k : A -> M S B) s a s' :
  m s = (Ok a, s') -> bind m k s = k a s'.
Proof. intros H. unfold bind. now rewrite H. Qed.

Lemma bind_throw {S A B} (m : M S A) (k : A -> M S B) s e s' :
  m s = (Throw e, s') -> bind m k s = (Throw e, s').
Proof. intros H. unfold bind. now rewrite H. Qed.

Lemma bind_undefined {S A B} (m : M S A) (k : A -> M S B) s s' :
  m s = (Undefined, s') -> bind m k s = (Undefined, s').
Proof. intros H. unfold bind. now rewrite H. Qed.

Lemma AssertNotLinked_eq DEBUG b :
  AssertNotLinked DEBUG b =
  if DEBUG && linked b then (Throw BuilderAlreadyLinked, b)
  else (Ok tt, set_linked false b).
Proof. unfold AssertNotLinked. run_monad. case_ifs. Qed.

Lemma CreateBlock_eq DEBUG buffer len b :
  CreateBlock DEBUG buffer len b =
  if DEBUG && linked b then (Throw BuilderAlreadyLinked, b)
  else
    let b1 := set_linked false b in
    let id := data_size_of b in
    if len =? 0 then (Ok (u32 id), b1)
    else if u64 (id + len) >? INT32_MAX then (Throw FileTooBig, b1)
    else if len >? Z.of_nat (length buffer) then (Undefined, b1)
    else (Ok (u32 id),
          set_blocks (<[u32 id := u32 len]> (blocks b))
            (set_data (data b ++ take (Z.to_nat len) buffer) b1)).
Proof.
  unfold CreateBlock, AssertNotLinked. run_monad.
  destruct (DEBUG && linked b); [reflexivity|].
  cbv zeta. change (data_size_of (set_linked false b)) with (data_size_of b).
  case_ifs.
Qed.

Lemma CreateBlockInPlace_eq DEBUG len b :
  CreateBlockInPlace DEBUG len b =
  if DEBUG && linked b then (Throw BuilderAlreadyLinked, b)
  else
    let b1 := set_linked false b in
    let id := data_size_of b in
    if len =? 0 then (Ok (u32 id), b1)
    else if u64 (id + len) >? INT32_MAX then (Throw FileTooBig, b1)
    else (Ok (u32 id),
          set_blocks (<[u32 id := u32 len]> (blocks b))
            (set_data (resize (data b) (u64 (id + len))) b1)).
Proof.
  unfold CreateBlockInPlace, AssertNotLinked. run_monad.
  destruct (DEBUG && linked b); [reflexivity|].
  cbv zeta. change (data_size_of (set_linked false b)) with (data_size_of b).
  case_ifs.
Qed.

Lemma CreateLink_eq DEBUG bo o bd d b :
  CreateLink DEBUG bo o bd d b =
  if DEBUG && linked b then (Throw BuilderAlreadyLinked, b)
  else
    let b1 := set_linked false b in
    if (u32 (o + 8) >? GetBlockSize b bo) || (d >? GetBlockSize b bd)
    then (Throw LinkAfterBlockEnd, b1)
    else (Ok tt, set_links (links b ++ [mkLink (u32 (bo + o)) (u32 (bd + d))]) b1).
Proof.
  unfold CreateLink, AssertNotLinked. run_monad.
  destruct (DEBUG && linked b); [reflexivity|].
  cbv zeta.
  change (GetBlockSize (set_linked false b)) with (GetBlockSize b).
  case_ifs.
Qed.

Lemma Build_eq b :
  Build b =
  if linked b then (Ok (Header (data b)), b)
  else if data_size_of b <? sizeof_DB_FILE then (Undefined, b)
  else
    let b1 := set_linked true b in
    let size := data_size_of b in
    let count := Z.of_nat (length (links b)) in
    let dataSize := u64 (size - get_field (data b) f_start_offset) in
    if negb (count =? 0) && (u64 (size + u64 (sizeof_DB_FILE_LINK * count)) >? INT32_MAX)
    then (Throw FileTooBig, b1)
    else
      let d := finalize_header (data b ++ links_bytes (links b)) size count dataSize in
      (Ok (Header d), set_data d b1).
Proof.
  unfold Build. run_monad.
  destruct (linked b); [reflexivity|].
  destruct (data_size_of b <? sizeof_DB_FILE); [reflexivity|].
  cbv zeta. destruct (links b) as [|l ls] eqn:Hls.
  - simpl. now rewrite app_nil_r.
  - cbn [length].
    replace (Z.of_nat (S (length ls)) =? 0) with false
      by (symmetry; apply Z.eqb_neq; lia).
    cbn [negb andb]. case_ifs.
Qed.

(** ** Build *)

Lemma Build_linked b :
  linked b = true -> Build b = (Ok (Header (data b)), b).
Proof. intros Hl. unfold Build. run_monad. now rewrite Hl. Qed.

Lemma Build_ok_linked b0 h b :
  Build b0 = (Ok h, b) -> linked b = true /\ h = Header (data b).
Proof.
  unfold Build. run_monad.
  destruct (linked b0) eqn:Hl.
  - intros [= <- <-]. auto.
  - destruct (data_size_of b0 <? sizeof_DB_FILE); [discriminate|].
    destruct (links b0) as [|l ls].
    + intros [= <- <-]. auto.
    + destruct (u64 _ >? INT32_MAX); [discriminate|].
      intros [= <- <-]. auto.
Qed.

(** C6.  A second [Build()] after a successful first one returns the
    header the first one returned, field by field, and leaves the builder
    as it is: the buffer does not grow. *)
Theorem Build_idempotent b0 h b :
  Build b0 = (Ok h, b) ->
  exists h' b',
    Build b = (Ok h', b') /\
    magic h' = magic h /\ version h' = version h /\
    links_table_offset h' = links_table_offset h /\
    links_count h' = links_count h /\
    data_size h' = data_size h /\ file_size h' = file_size h /\
    length (data b') = length (data b) /\ b' = b.
Proof.
  intros HB. apply Build_ok_linked in HB as [Hl ->].
  exists (Header (data b)), b. rewrite (Build_linked b Hl). repeat split.
Qed.

Lemma Build_idempotent_witness :
  exists h' b',
    Build (snd (Build (DBFileBuilder_new 112))) = (Ok h', b') /\
    magic h' = DB_FILE_MAGIC /\ file_size h' = 112 /\
    length (data b') = 112%nat.
Proof.
  destruct (Build_idempotent (DBFileBuilder_new 112)
              (Header (data (snd (Build (DBFileBuilder_new 112)))))
              (snd (Build (DBFileBuilder_new 112))) eq_refl)
    as (h' & b' & HB & Hm & _ & _ & _ & _ & Hf & Hlen & _).
  exists h', b'. repeat split; [exact HB | rewrite Hm | rewrite Hf | rewrite Hlen];
    reflexivity.
Defined.

(** ** Mutation after [Build] *)

Lemma AssertNotLinked_debug b :
  linked b = true -> AssertNotLinked true b = (Throw BuilderAlreadyLinked, b).
Proof. intros Hl. unfold AssertNotLinked. run_monad. now rewrite Hl. Qed.

(** C3, as the code has it.  In a translation unit compiled with [DEBUG],
    every [CreateBlock] (both overloads) and [CreateLink] on a builder
    that [Build()] has finalized throws "builder already linked!" and
    leaves the builder, hence buffer, links and header, untouched. *)
Theorem mutation_after_Build_rejected_in_debug b0 h b :
  Build b0 = (Ok h, b) ->
  (forall buffer len,
      CreateBlock true buffer len b = (Throw BuilderAlreadyLinked, b)) /\
  (forall len,
      CreateBlockInPlace true len b = (Throw BuilderAlreadyLinked, b)) /\
  (forall bo o bd d,
      CreateLink true bo o bd d b = (Throw BuilderAlreadyLinked, b)).
Proof.
  intros HB. apply Build_ok_linked in HB as [Hl _].
  pose proof (AssertNotLinked_debug b Hl) as HA.
  repeat split; intros;
    unfold CreateBlock, CreateBlockInPlace, CreateLink, bind at 1;
    now rewrite HA.
Qed.

Lemma mutation_after_Build_rejected_in_debug_witness :
  CreateBlock true [Byte.x01] 1 (snd (Build (DBFileBuilder_new 112)))
  = (Throw BuilderAlreadyLinked, snd (Build (DBFileBuilder_new 112))).
Proof.
  apply (mutation_after_Build_rejected_in_debug (DBFileBuilder_new 112)
           (Header (data (snd (Build (DBFileBuilder_new 112)))))
           (snd (Build (DBFileBuilder_new 112))) eq_refl).
Defined.

(** C3, as stated, fails without [DEBUG]: the guard of [AssertNotLinked]
    is compiled out, so [CreateBlock] on a finalized builder succeeds,
    grows the buffer behind the committed [file_size] and clears
    [linked]; [CreateLink] likewise records a link. *)
Lemma mutation_after_Build_accepted_in_release :
  let b0 := snd (CreateBlock false (replicate 8 Byte.x00) 8 (DBFileBuilder_new 112)) in
  let b := snd (Build b0) in
  let r := CreateBlock false [Byte.x01; Byte.x02] 2 b in
  let r' := CreateLink false 112 0 112 0 b in
  fst (Build b0) = Ok (Header (data b)) /\
  linked b = true /\
  fst r = Ok 120 /\
  length (data b) = 120%nat /\
  length (data (snd r)) = 122%nat /\
  file_size (Header (data (snd r))) = 120 /\
  linked (snd r) = false /\
  fst r' = Ok tt /\
  links b = [] /\ links (snd r') = [mkLink 112 112].
Proof. vm_compute. repeat split. Qed.

(** ** The first block *)

Lemma sizeof_DB_FILE_eq : sizeof_DB_FILE = 8 + 1 + 1 + 2 + 4 + 4 + 4 + 4.
Proof. reflexivity. Qed.

Lemma u32_small z : 0 <= z <= INT32_MAX -> u32 z = z.
Proof. intros. apply Z.mod_small. unfold INT32_MAX in *. lia. Qed.

Lemma u32_id z : 0 <= z -> z < 2 ^ 32 -> u32 z = z.
Proof. intros. apply Z.mod_small. now split. Qed.

Lemma u64_id z : 0 <= z -> z < 2 ^ 64 -> u64 z = z.
Proof. intros. apply Z.mod_small. now split. Qed.

Lemma u64_small z : 0 <= z <= INT32_MAX -> u64 z = z.
Proof. intros. apply Z.mod_small. unfold INT32_MAX in *. lia. Qed.

Lemma length_new sz :
  0 <= sz -> Z.of_nat (length (data (DBFileBuilder_new sz))) = sz.
Proof.
  intros. simpl. rewrite length_set_field, length_replicate. lia.
Qed.

Lemma start_offset_new sz :
  sizeof_DB_FILE <= sz <= INT32_MAX ->
  get_field (data (DBFileBuilder_new sz)) f_start_offset = sz.
Proof.
  intros [Hlo Hhi]. change (28 <= sz) in Hlo. simpl data.
  rewrite get_set_field_same.
  - rewrite length_replicate, Z2Nat.id by lia.
    rewrite u32_small by lia. apply Z.mod_small.
    unfold INT32_MAX in *. simpl. lia.
  - rewrite length_replicate. unfold f_end. simpl. lia.
Qed.

(** C7, on the code.  The constructor stores [sizeof(DBFileBuilder)], not
    [sizeof(DB_FILE)] = 28, in [start_offset]: whatever that size [sz]
    is, the payload starts at offset [sz] and the first [CreateBlock]
    returns the block id [sz].  It is 28 only if the builder object
    itself (a flag, two vectors and a hash map) were 28 bytes large. *)
Theorem first_block_id_is_sizeof_DBFileBuilder DEBUG sz buffer len :
  sizeof_DB_FILE <= sz ->
  0 < len <= Z.of_nat (length buffer) ->
  sz + len <= INT32_MAX ->
  sizeof_DB_FILE = 28 /\
  start_offset (Header (data (DBFileBuilder_new sz))) = sz /\
  fst (CreateBlock DEBUG buffer len (DBFileBuilder_new sz)) = Ok sz.
Proof.
  intros Hsz Hlen Hmax.
  assert (Hsz' : 28 <= sz) by exact Hsz.
  split; [reflexivity|]. split.
  - apply start_offset_new. lia.
  - rewrite CreateBlock_eq. cbv zeta. simpl linked. rewrite andb_false_r.
    unfold data_size_of. rewrite length_new by lia.
    destruct (len =? 0) eqn:E0; [lia|].
    rewrite u64_small by lia.
    destruct (sz + len >? INT32_MAX) eqn:E1; [lia|].
    destruct (len >? Z.of_nat (length buffer)) eqn:E2; [lia|].
    simpl. now rewrite u32_small by lia.
Qed.

Lemma first_block_id_is_sizeof_DBFileBuilder_witness :
  sizeof_DB_FILE = 28 /\
  start_offset (Header (data (DBFileBuilder_new 112))) = 112 /\
  fst (CreateBlock false [Byte.x2a] 1 (DBFileBuilder_new 112)) = Ok 112.
Proof.
  apply (first_block_id_is_sizeof_DBFileBuilder false 112 [Byte.x2a] 1);
    vm_compute; intuition discriminate.
Defined.

(** ** The length test of the reader *)

(** C8, on the code.  The test compares the known length with
    [offsetof(DB_FILE, file_size) + sizeof(size_t)] = 32, not with 28:
    a nonzero length is refused exactly when it is below 32, so the
    lengths 28 to 31, which hold the header through [file_size], are
    refused with "file too small". *)
Theorem file_too_small_threshold_is_32 base m len :
  0 <= len ->
  (file_too_small len = true <-> 0 < len < 32) /\
  (sizeof_DB_FILE <= len < 32 ->
   ValidateAndLink base len m = (Throw FileTooSmall, m)).
Proof.
  intros Hlen.
  assert (Hft : file_too_small len = true <-> 0 < len < 32).
  { unfold file_too_small, offsetof_file_size, sizeof_size_t. simpl.
    rewrite andb_true_iff, negb_true_iff, Z.eqb_neq, Z.ltb_lt. lia. }
  split; [exact Hft|].
  intros [Hlo Hhi]. change (28 <= len) in Hlo.
  unfold ValidateAndLink. unfold bind at 1, throw_if.
  replace (file_too_small len) with true by (symmetry; apply Hft; lia).
  reflexivity.
Qed.

Lemma file_too_small_threshold_is_32_witness :
  Z.of_nat (length header_only_container) = sizeof_DB_FILE /\
  file_size (Header header_only_container) = 28 /\
  DBFileReader_buffer 4096 header_only_container 0
  = (Ok tt, header_only_container) /\
  DBFileReader_path 4096 header_only_container
  = (Throw FileTooSmall, header_only_container).
Proof.
  split; [reflexivity|]. split; [reflexivity|]. split; [vm_compute; reflexivity|].
  apply (file_too_small_threshold_is_32 4096 header_only_container 28);
    vm_compute; intuition discriminate.
Defined.

(** ** The bounds test of [CreateLink] *)

(** Where [origin + 8] does not wrap, the test is the one of the
    description: a link out of bounds is refused and nothing is
    recorded; a link within bounds is recorded as the pair of absolute
    offsets. *)
Lemma CreateLink_refuses_without_wrap DEBUG bo o bd d b :
  0 <= o -> o + 8 < 2 ^ 32 ->
  o + 8 > GetBlockSize b bo \/ d > GetBlockSize b bd ->
  exists e b',
    CreateLink DEBUG bo o bd d b = (Throw e, b') /\
    links b' = links b /\ data b' = data b /\ blocks b' = blocks b.
Proof.
  intros Ho Hw Hbad. rewrite CreateLink_eq.
  destruct (DEBUG && linked b); [now eexists _, _|]. cbv zeta.
  rewrite (u32_id (o + 8)) by (lia || assumption).
  destruct (_ || _) eqn:E; [now eexists _, _|].
  apply orb_false_iff in E as [E1 E2]. lia.
Qed.

Lemma CreateLink_records DEBUG bo o bd d b :
  DEBUG && linked b = false ->
  0 <= o -> o + 8 <= GetBlockSize b bo -> GetBlockSize b bo < 2 ^ 32 ->
  d <= GetBlockSize b bd ->
  CreateLink DEBUG bo o bd d b
  = (Ok tt, set_links (links b ++ [mkLink (u32 (bo + o)) (u32 (bd + d))])
              (set_linked false b)).
Proof.
  intros Hl Ho Hob Hs Hd. rewrite CreateLink_eq, Hl. cbv zeta.
  rewrite (u32_id (o + 8)) by (lia || assumption).
  destruct (_ || _) eqn:E; [|reflexivity].
  apply orb_true_iff in E as [E|E]; lia.
Qed.

(** C4, on the code.  [origin + 8] is computed in [uint32_t]: for an
    origin offset in the last 8 values of the type the sum wraps around,
    and the call passes the test whenever the wrapped sum is within the
    size of the block, although [origin + 8] is beyond it.  The call
    does not throw and records a link whose origin,
    [blockOrigin + origin - 2^32], lies before the block. *)
Theorem CreateLink_origin_offset_wraps DEBUG b bo o bd d :
  DEBUG && linked b = false ->
  2 ^ 32 - 8 <= o < 2 ^ 32 ->
  o + 8 - 2 ^ 32 <= GetBlockSize b bo < 2 ^ 32 ->
  d <= GetBlockSize b bd ->
  o + 8 > GetBlockSize b bo /\
  CreateLink DEBUG bo o bd d b
  = (Ok tt, set_links (links b ++ [mkLink (u32 (bo + o)) (u32 (bd + d))])
              (set_linked false b)).
Proof.
  change (2 ^ 32) with 4294967296.
  intros Hl Ho Hs Hd. split; [lia|].
  rewrite CreateLink_eq, Hl. cbv zeta.
  assert (Hw : u32 (o + 8) = o + 8 - 4294967296).
  { unfold u32, wrap. change (2 ^ 32) with 4294967296.
    symmetry. apply (Z.mod_unique _ _ 1); lia. }
  rewrite Hw.
  destruct (_ || _) eqn:E; [|reflexivity].
  apply orb_true_iff in E as [E|E]; lia.
Qed.

Lemma CreateLink_origin_offset_wraps_witness :
  let b := snd (CreateBlock false (replicate 8 Byte.x00) 8 (DBFileBuilder_new 112)) in
  GetBlockSize b 112 = 8 /\
  (2 ^ 32 - 8) + 8 > GetBlockSize b 112 /\
  CreateLink false 112 (2 ^ 32 - 8) 112 0 b
  = (Ok tt, set_links [mkLink 104 112] b).
Proof.
  intros b. split; [reflexivity|].
  apply (CreateLink_origin_offset_wraps false b 112 (2 ^ 32 - 8) 112 0);
    vm_compute; intuition discriminate.
Defined.

(** ** The size cap of [CreateBlock] *)

(** Where [id + len] does not wrap, the cap holds: a block that would
    take the buffer past [INT32_MAX] is refused before the buffer or
    the sizes change, in both overloads, and so is a link table in
    [Build]. *)
Lemma CreateBlock_over_cap DEBUG buffer len b :
  0 < len -> data_size_of b + len < 2 ^ 64 ->
  data_size_of b + len > INT32_MAX ->
  exists e b',
    CreateBlock DEBUG buffer len b = (Throw e, b') /\
    data b' = data b /\ blocks b' = blocks b.
Proof.
  intros Hlen Hw Hcap. rewrite CreateBlock_eq.
  destruct (DEBUG && linked b); [now eexists _, _|]. cbv zeta.
  destruct (len =? 0) eqn:E0; [lia|].
  rewrite u64_id by ((unfold data_size_of; lia) || assumption).
  destruct (_ >? INT32_MAX) eqn:E; [now eexists _, _|lia].
Qed.

Lemma CreateBlockInPlace_over_cap_without_wrap DEBUG len b :
  0 < len -> data_size_of b + len < 2 ^ 64 ->
  data_size_of b + len > INT32_MAX ->
  exists e b',
    CreateBlockInPlace DEBUG len b = (Throw e, b') /\
    data b' = data b /\ blocks b' = blocks b.
Proof.
  intros Hlen Hw Hcap. rewrite CreateBlockInPlace_eq.
  destruct (DEBUG && linked b); [now eexists _, _|]. cbv zeta.
  destruct (len =? 0) eqn:E0; [lia|].
  rewrite u64_id by ((unfold data_size_of; lia) || assumption).
  destruct (_ >? INT32_MAX) eqn:E; [now eexists _, _|lia].
Qed.

Lemma Build_over_cap b :
  linked b = false -> sizeof_DB_FILE <= data_size_of b ->
  data_size_of b + 8 * Z.of_nat (length (links b)) < 2 ^ 64 ->
  data_size_of b + 8 * Z.of_nat (length (links b)) > INT32_MAX ->
  data_size_of b <= INT32_MAX ->
  Build b = (Throw FileTooBig, set_linked true b).
Proof.
  intros Hl Hh Hw Hcap Hsize. rewrite Build_eq, Hl.
  destruct (_ <? sizeof_DB_FILE) eqn:E; [lia|]. cbv zeta.
  unfold sizeof_DB_FILE_LINK, INT32_MAX in *.
  change (28 <= data_size_of b) in Hh.
  rewrite (u64_id (8 * _)) by (lia || (eapply Z.le_lt_trans; [|exact Hw]; lia)).
  rewrite u64_id by (lia || assumption).
  destruct (_ =? 0) eqn:E0; [lia|].
  destruct (_ >? 2147483647) eqn:E1; [reflexivity|lia].
Qed.

Lemma data_size_of_set m d b :
  data_size_of (set_blocks m (set_data d b)) = Z.of_nat (length d).
Proof. reflexivity. Qed.

Lemma resize_shrink d n :
  0 <= n <= Z.of_nat (length d) -> resize d n = take (Z.to_nat n) d.
Proof.
  intros Hn. unfold resize.
  replace (Z.to_nat n - length d)%nat with 0%nat by lia.
  apply app_nil_r.
Qed.

(** C9, on the code.  In the overload that creates the block in place,
    [id + len] is computed in [size_t]: for a length in the last [id]
    values of the type the sum wraps around to less than [id], which is
    below [INT32_MAX].  The call returns the block without throwing,
    resizes the buffer down to the wrapped sum and records the size
    [(uint32_t)len]. *)
Theorem CreateBlockInPlace_length_wraps DEBUG b len :
  DEBUG && linked b = false ->
  data_size_of b <= INT32_MAX ->
  2 ^ 64 - data_size_of b <= len < 2 ^ 64 ->
  data_size_of b + len > INT32_MAX /\
  exists b',
    CreateBlockInPlace DEBUG len b = (Ok (u32 (data_size_of b)), b') /\
    data_size_of b' = data_size_of b + len - 2 ^ 64 /\
    data_size_of b' < data_size_of b /\
    GetBlockSize b' (u32 (data_size_of b)) = u32 len.
Proof.
  change (2 ^ 64) with 18446744073709551616. unfold INT32_MAX.
  intros Hl Hsize Hlen.
  assert (H0 : 0 <= data_size_of b) by (unfold data_size_of; lia).
  split; [lia|].
  rewrite CreateBlockInPlace_eq, Hl. cbv zeta.
  destruct (len =? 0) eqn:E0; [lia|].
  assert (Hw : u64 (data_size_of b + len)
               = data_size_of b + len - 18446744073709551616).
  { unfold u64, wrap. change (2 ^ 64) with 18446744073709551616.
    symmetry. apply (Z.mod_unique _ _ 1); lia. }
  rewrite Hw. unfold INT32_MAX.
  destruct (_ >? 2147483647) eqn:E; [lia|].
  assert (Hdata : Z.of_nat (length (resize (data b)
                     (data_size_of b + len - 18446744073709551616)))
                  = data_size_of b + len - 18446744073709551616).
  { unfold data_size_of in *. rewrite resize_shrink, length_take by lia. lia. }
  eexists. split; [reflexivity|].
  rewrite !data_size_of_set, Hdata. unfold GetBlockSize.
  cbn [blocks set_blocks]. rewrite lookup_insert_eq. repeat split; lia.
Qed.

Lemma CreateBlockInPlace_length_wraps_witness :
  let b := DBFileBuilder_new 112 in
  let r := CreateBlockInPlace false SIZE_MAX b in
  data_size_of b + SIZE_MAX > INT32_MAX /\
  fst r = Ok 112 /\
  data_size_of (snd r) = 111 /\
  GetBlockSize (snd r) 112 = 2 ^ 32 - 1.
Proof.
  intros b r.
  destruct (CreateBlockInPlace_length_wraps false b SIZE_MAX)
    as (Hcap & b' & Hr & Hsize & _ & Hblock);
    [reflexivity | vm_compute; discriminate | vm_compute; intuition discriminate |].
  split; [exact Hcap|]. subst r. rewrite Hr. cbn [fst snd].
  split; [reflexivity|]. split; [rewrite Hsize; reflexivity|].
  exact Hblock.
Defined.

(** ** The bounds tests of the reader *)

(** C5, on the code.  The loop accepts [origin <= file_size] and then
    writes the 8 bytes from [origin] on.  When the 40-byte container
    above lies in a larger memory and is loaded with its length, the
    reader succeeds and overwrites the 8 bytes that follow the
    container; when the container is the whole content of a file, the
    same write leaves the storage of [readData]. *)
Theorem link_write_past_file_size :
  let c := overhanging_link_container in
  file_size (Header c) = 40 /\
  length c = 40%nat /\
  DBFileReader_buffer 4096 (c ++ replicate 8 Byte.xff) 40
  = (Ok tt, c ++ le_split 8 4096) /\
  DBFileReader_path 4096 c = (Undefined, c).
Proof. vm_compute. repeat split. Qed.

(** ** The header that [Build] writes *)

Ltac field_disjoint := unfold disjoint_fields, f_end; simpl; lia.

Ltac get_set_fields :=
  repeat first
    [ rewrite get_set_field_other by field_disjoint
    | rewrite get_set_field_same
        by (rewrite ?length_set_field; unfold f_end; simpl; lia) ].

Lemma length_finalize_header d lo cnt ds :
  length (finalize_header d lo cnt ds) = length d.
Proof. unfold finalize_header. now rewrite !length_set_field. Qed.

Lemma drop_finalize_header d lo cnt ds k :
  (28 <= k)%nat -> drop k (finalize_header d lo cnt ds) = drop k d.
Proof.
  intros Hk. unfold finalize_header.
  rewrite !drop_set_field; [reflexivity|..]; unfold f_end; simpl; lia.
Qed.

Lemma Header_finalize_header d lo cnt ds :
  (28 <= length d)%nat ->
  Header (finalize_header d lo cnt ds) =
  {| magic := DB_FILE_MAGIC;
     version := DB_FILE_CURR_VERSION;
     flags := get_field d f_flags;
     links_count := u16 (u32 cnt);
     links_table_offset := u32 lo;
     start_offset := get_field d f_start_offset;
     data_size := u32 ds;
     file_size := u32 (Z.of_nat (length d)) |}.
Proof.
  intros Hlen. unfold Header, finalize_header.
  rewrite !length_set_field. get_set_fields.
  f_equal; try reflexivity; apply Zmod_mod.
Qed.

Lemma length_link_bytes l : length (link_bytes l) = 8%nat.
Proof. unfold link_bytes. now rewrite length_app, !length_le_split. Qed.

Lemma length_links_bytes ls : length (links_bytes ls) = (8 * length ls)%nat.
Proof.
  induction ls as [|l ls IH]; [reflexivity|].
  unfold links_bytes in *. cbn [map concat].
  rewrite length_app, length_link_bytes, IH. cbn [length]. lia.
Qed.

(** ** The number of links *)

Lemma set_linked_false_id b : linked b = false -> set_linked false b = b.
Proof. destruct b. simpl. now intros ->. Qed.

Lemma CreateLink_times DEBUG bo bd n b :
  linked b = false ->
  8 <= GetBlockSize b bo ->
  0 <= GetBlockSize b bd ->
  times n (CreateLink DEBUG bo 0 bd 0) b
  = (Ok tt, set_links (links b ++ replicate n (mkLink (u32 bo) (u32 bd))) b).
Proof.
  revert b. induction n as [|n IH]; intros b Hl Ho Hd.
  - cbn [times replicate]. rewrite app_nil_r. now destruct b.
  - cbn [times]. erewrite bind_ok; cycle 1.
    { rewrite CreateLink_eq, Hl, andb_false_r. cbv zeta.
      change (u32 (0 + 8)) with 8.
      destruct (8 >? GetBlockSize b bo) eqn:E1; [lia|].
      destruct (0 >? GetBlockSize b bd) eqn:E2; [lia|].
      simpl orb. cbv iota. rewrite set_linked_false_id by assumption.
      rewrite !Z.add_0_r. reflexivity. }
    rewrite IH by assumption. cbn [links set_links data blocks linked].
    rewrite <- app_assoc. reflexivity.
Qed.

Lemma Z_of_max_links : Z.of_nat max_links = 65536.
Proof.
  unfold max_links. rewrite Z2Nat.id; [reflexivity|]. apply Z.pow_nonneg. lia.
Qed.

(** What [Build] makes of [n] links to an 8-byte block created first. *)
Lemma Build_after_links DEBUG n :
  120 + 8 * Z.of_nat n <= INT32_MAX ->
  let b0 := snd (CreateBlock DEBUG (replicate 8 Byte.x00) 8 (DBFileBuilder_new 112)) in
  let r := times n (CreateLink DEBUG 112 0 112 0) b0 in
  fst r = Ok tt /\
  length (links (snd r)) = n /\
  exists h b,
    Build (snd r) = (Ok h, b) /\
    links_count h = u16 (u32 (Z.of_nat n)) /\
    links_table_offset h = 120 /\
    drop 120 (data b) = links_bytes (links (snd r)) /\
    length (links_bytes (links (snd r))) = (8 * n)%nat.
Proof.
  intros Hn b0 r.
  assert (Hb0 : linked b0 = false /\ GetBlockSize b0 112 = 8 /\
                links b0 = [] /\ length (data b0) = 120%nat).
  { subst b0. destruct DEBUG; vm_compute; repeat split. }
  destruct Hb0 as (Hl & Hs & Hk & Hd).
  assert (Hr : r = (Ok tt, set_links (replicate n (mkLink 112 112)) b0)).
  { subst r. rewrite CreateLink_times by (rewrite ?Hs; lia || assumption).
    now rewrite Hk. }
  rewrite Hr. cbn [fst snd links set_links].
  split; [reflexivity|]. split; [apply length_replicate|].
  eexists _, _. rewrite Build_eq. cbn [linked set_links links data].
  rewrite Hl. unfold data_size_of. cbn [data set_links]. rewrite Hd.
  change (Z.of_nat 120 <? sizeof_DB_FILE) with false. cbv iota zeta.
  rewrite length_replicate.
  change (Z.of_nat 120) with 120. unfold sizeof_DB_FILE_LINK.
  rewrite (u64_small (8 * Z.of_nat n)) by lia.
  rewrite (u64_small (120 + 8 * Z.of_nat n)) by lia.
  destruct (120 + 8 * Z.of_nat n >? INT32_MAX) eqn:E; [lia|].
  rewrite andb_false_r. split; [reflexivity|].
  assert (Hlen : (28 <= length (data b0 ++ links_bytes (replicate n (mkLink 112 112))))%nat)
    by (rewrite length_app; lia).
  rewrite Header_finalize_header by exact Hlen.
  cbn [links_count links_table_offset data set_data].
  split; [reflexivity|]. split; [reflexivity|].
  split; [|rewrite length_links_bytes, length_replicate; reflexivity].
  rewrite drop_finalize_header by lia.
  rewrite <- Hd. apply drop_app_length.
Qed.

(** C10, on the code.  [links_count] is a [uint16_t] that receives
    [links.size()]: with one 8-byte block and [2^16] calls of
    [CreateLink(112, 0, 112, 0)], every call succeeds, [Build()]
    succeeds and serializes [2^16] records behind the 120 bytes of
    header and payload, and the header says [links_count = 0]. *)
Theorem links_count_truncated_to_16_bits (DEBUG : bool) :
  let b0 := snd (CreateBlock DEBUG (replicate 8 Byte.x00) 8 (DBFileBuilder_new 112)) in
  let r := times max_links (CreateLink DEBUG 112 0 112 0) b0 in
  fst r = Ok tt /\
  Z.of_nat (length (links (snd r))) = 65536 /\
  exists h b,
    Build (snd r) = (Ok h, b) /\
    links_count h = 0 /\
    links_table_offset h = 120 /\
    drop 120 (data b) = links_bytes (links (snd r)) /\
    Z.of_nat (length (links_bytes (links (snd r)))) = 8 * 65536.
Proof.
  assert (Hn : 120 + 8 * Z.of_nat max_links <= INT32_MAX)
    by (rewrite Z_of_max_links; discriminate).
  destruct (Build_after_links DEBUG max_links Hn)
    as (Hok & Hlen & h & b & HB & Hc & Ho & Hd & Hl).
  split; [exact Hok|]. split; [rewrite Hlen; apply Z_of_max_links|].
  exists h, b. split; [exact HB|]. split.
  { rewrite Hc, Z_of_max_links. reflexivity. }
  split; [exact Ho|]. split; [exact Hd|].
  rewrite Hl, Nat2Z.inj_mul, Z_of_max_links. reflexivity.
Qed.

(** ** Rejection by the reader *)

Lemma load_eq off n m :
  load off n m =
  if in_bounds m off n then (Ok (peek m (Z.to_nat off) n), m) else (Undefined, m).
Proof. unfold load. run_monad. case_ifs. Qed.

Lemma store_eq off n v m :
  store off n v m =
  if in_bounds m off n then (Ok tt, poke m (Z.to_nat off) (le_split n v))
  else (Undefined, m).
Proof. unfold store. run_monad. case_ifs. Qed.

Lemma load_field_ok m f :
  (f_end f <= length m)%nat -> load_field f m = (Ok (get_field m f), m).
Proof.
  intros Hin. unfold load_field. rewrite load_eq.
  unfold in_bounds, f_end in *.
  replace (0 <=? Z.of_nat (f_off f)) with true by (symmetry; apply Z.leb_le; lia).
  replace (Z.of_nat (f_off f) + Z.of_nat (f_size f) <=? Z.of_nat (length m))
    with true by (symmetry; apply Z.leb_le; lia).
  simpl andb. cbv iota. unfold get_field. now rewrite Nat2Z.id.
Qed.

(** C2, as the code has it.  A buffer with a wrong magic, a version
    below the minimum or a [file_size] above the known length is
    refused and keeps every byte.  The exception is the one of the first
    failing test in the order of the code: the test on the known length
    itself comes first ("file too small"), then "bad magic", then
    "version too low", then "read file too small". *)
Theorem rejected_buffer_is_unmodified base m len :
  (file_too_small len = false -> sizeof_DB_FILE <= Z.of_nat (length m)) ->
  magic (Header m) <> DB_FILE_MAGIC \/
  version (Header m) < DB_FILE_MIN_VERSION \/
  (len <> 0 /\ file_size (Header m) > len) ->
  exists e,
    ValidateAndLink base len m = (Throw e, m) /\
    (file_too_small len = true -> e = FileTooSmall) /\
    (file_too_small len = false ->
     (magic (Header m) <> DB_FILE_MAGIC -> e = BadMagic) /\
     (magic (Header m) = DB_FILE_MAGIC ->
      (version (Header m) < DB_FILE_MIN_VERSION -> e = VersionTooLow) /\
      (DB_FILE_MIN_VERSION <= version (Header m) -> e = ReadFileTooSmall))).
Proof.
  intros Hhdr Hbad. unfold ValidateAndLink.
  destruct (file_too_small len) eqn:Hft.
  { exists FileTooSmall. split; [reflexivity|]. split; [reflexivity|discriminate]. }
  specialize (Hhdr eq_refl). change (28 <= Z.of_nat (length m)) in Hhdr.
  cbn [Header magic version file_size] in *.
  cbv [bind throw_if ret throw].
  rewrite (load_field_ok m f_magic) by (unfold f_end; simpl; lia).
  destruct (get_field m f_magic =? DB_FILE_MAGIC) eqn:Hm; cbn [negb].
  2:{ apply Z.eqb_neq in Hm. exists BadMagic. split; [reflexivity|].
      split; [discriminate|]. intros _. split; [reflexivity|contradiction]. }
  apply Z.eqb_eq in Hm.
  rewrite (load_field_ok m f_version) by (unfold f_end; simpl; lia).
  destruct (get_field m f_version <? DB_FILE_MIN_VERSION) eqn:Hv.
  { apply Z.ltb_lt in Hv. exists VersionTooLow. split; [reflexivity|].
    split; [discriminate|]. intros _. split; [contradiction|].
    intros _. split; [reflexivity|lia]. }
  apply Z.ltb_ge in Hv.
  destruct Hbad as [Hbad|[Hbad|[Hlen Hfs]]]; [contradiction|lia|].
  destruct (len =? 0) eqn:Hl0; [apply Z.eqb_eq in Hl0; contradiction|].
  rewrite (load_field_ok m f_file_size) by (unfold f_end; simpl; lia).
  destruct (get_field m f_file_size >? len) eqn:Hgt; [|lia].
  exists ReadFileTooSmall. split; [reflexivity|].
  split; [discriminate|]. intros _. split; [contradiction|].
  intros _. split; [lia|reflexivity].
Qed.

Lemma rejected_buffer_is_unmodified_witness :
  exists e,
    DBFileReader_path 4096 (replicate 32 Byte.x00)
    = (Throw e, replicate 32 Byte.x00) /\ e = BadMagic.
Proof.
  destruct (rejected_buffer_is_unmodified 4096 (replicate 32 Byte.x00) 32)
    as (e & He & _ & Hm).
  - intros _. vm_compute. discriminate.
  - left. vm_compute. discriminate.
  - exists e. split; [exact He|].
    apply Hm; [reflexivity|]. vm_compute. discriminate.
Defined.

(** C2, as stated, fails on a short buffer: a file of ten zero bytes has
    a wrong magic, yet the reader reports "file too small", the test on
    the length coming before the test on the magic. *)
Lemma wrong_magic_reported_as_file_too_small :
  let m := replicate 10 Byte.x00 in
  magic (Header m) <> DB_FILE_MAGIC /\
  DBFileReader_path 4096 m = (Throw FileTooSmall, m) /\
  DBFileReader_path 4096 m <> (Throw BadMagic, m).
Proof. vm_compute. repeat split; discriminate. Qed.

(** ** Builder sessions: the invariant is kept by every call within its bounds *)

Lemma link_ok_mono sz hi hi' l : hi <= hi' -> link_ok sz hi l -> link_ok sz hi' l.
Proof. unfold link_ok. lia. Qed.

Lemma wf_new sz :
  sizeof_DB_FILE <= sz <= INT32_MAX ->
  wf sz (DBFileBuilder_new sz) /\ wf_linked sz (DBFileBuilder_new sz).
Proof.
  intros Hsz. assert (28 <= sz <= INT32_MAX) as Hsz' by exact Hsz.
  split; [constructor|].
  - lia.
  - unfold data_size_of. rewrite length_new; lia.
  - now apply start_offset_new.
  - intros id size. simpl. rewrite lookup_empty. discriminate.
  - constructor.
  - intros Hl. discriminate.
Qed.

Lemma GetBlockSize_pos b id :
  0 < GetBlockSize b id -> blocks b !! id = Some (GetBlockSize b id).
Proof. unfold GetBlockSize. destruct (blocks b !! id); [reflexivity|lia]. Qed.

Lemma wf_add_block sz b extra :
  wf sz b ->
  (0 < length extra)%nat ->
  data_size_of b + Z.of_nat (length extra) <= INT32_MAX ->
  wf sz (set_blocks (<[data_size_of b := Z.of_nat (length extra)]> (blocks b))
           (set_data (data b ++ extra) (set_linked false b))).
Proof.
  intros [Hsz Hsize Hstart Hblocks Hlinks] Hpos Hmax.
  change (28 <= sz) in Hsz. unfold data_size_of in *.
  constructor; unfold data_size_of; cbn [data blocks links set_blocks set_data set_linked].
  - exact Hsz.
  - rewrite length_app. lia.
  - rewrite get_field_app; [exact Hstart|]. unfold f_end. simpl. lia.
  - intros id size. rewrite length_app. rewrite lookup_insert.
    destruct (decide (Z.of_nat (length (data b)) = id)) as [<-|Hne].
    + intros [= <-]. lia.
    + intros Hid. apply Hblocks in Hid. lia.
  - eapply Forall_impl; [exact Hlinks|]. intros l.
    apply link_ok_mono. rewrite length_app. lia.
Qed.

Lemma wf_set_linked_false sz b : wf sz b -> wf sz (set_linked false b).
Proof. intros []. constructor; assumption. Qed.

Lemma resize_grow d n :
  0 <= n -> resize d (Z.of_nat (length d) + n) = d ++ replicate (Z.to_nat n) Byte.x00.
Proof.
  intros Hn. unfold resize. rewrite firstn_all2 by lia. f_equal. f_equal. lia.
Qed.

Lemma CreateBlock_wf DEBUG sz b buffer len r b' :
  wf sz b ->
  call_in_bounds b (Call_CreateBlock buffer len) ->
  CreateBlock DEBUG buffer len b = (Ok r, b') ->
  wf sz b' /\ linked b' = false.
Proof.
  intros Hwf [Hlen Hmax]. rewrite CreateBlock_eq. cbv zeta.
  pose proof (wf_size _ _ Hwf) as Hsize. pose proof (wf_sz _ _ Hwf) as Hsz.
  change (28 <= sz) in Hsz.
  destruct (DEBUG && linked b); [discriminate|].
  destruct (len =? 0) eqn:E0.
  { intros [= <- <-]. split; [now apply wf_set_linked_false|reflexivity]. }
  apply Z.eqb_neq in E0.
  destruct (u64 _ >? INT32_MAX); [discriminate|].
  destruct (len >? Z.of_nat (length buffer)); [discriminate|].
  intros [= <- <-]. split; [|reflexivity].
  assert (Hl : Z.of_nat (length (take (Z.to_nat len) buffer)) = len)
    by (rewrite length_take; lia).
  rewrite !u32_small by lia. rewrite <- Hl at 1.
  apply wf_add_block; [assumption|lia|lia].
Qed.

Lemma CreateBlockInPlace_wf DEBUG sz b len r b' :
  wf sz b ->
  call_in_bounds b (Call_CreateBlockInPlace len) ->
  CreateBlockInPlace DEBUG len b = (Ok r, b') ->
  wf sz b' /\ linked b' = false.
Proof.
  intros Hwf [Hlen Hmax]. rewrite CreateBlockInPlace_eq. cbv zeta.
  pose proof (wf_size _ _ Hwf) as Hsize. pose proof (wf_sz _ _ Hwf) as Hsz.
  change (28 <= sz) in Hsz.
  destruct (DEBUG && linked b); [discriminate|].
  destruct (len =? 0) eqn:E0.
  { intros [= <- <-]. split; [now apply wf_set_linked_false|reflexivity]. }
  apply Z.eqb_neq in E0.
  destruct (u64 _ >? INT32_MAX); [discriminate|].
  intros [= <- <-]. split; [|reflexivity].
  rewrite u64_small, !u32_small by lia.
  unfold data_size_of at 2. rewrite resize_grow by lia.
  assert (Hl : Z.of_nat (length (replicate (Z.to_nat len) Byte.x00)) = len)
    by (rewrite length_replicate; lia).
  rewrite <- Hl at 1.
  apply wf_add_block; [assumption|rewrite length_replicate; lia|lia].
Qed.

Lemma CreateLink_wf DEBUG sz b bo o bd d b' :
  wf sz b ->
  call_in_bounds b (Call_CreateLink bo o bd d) ->
  CreateLink DEBUG bo o bd d b = (Ok tt, b') ->
  wf sz b' /\ linked b' = false.
Proof.
  intros Hwf (Ho & Hob & Hd & Hbd). rewrite CreateLink_eq. cbv zeta.
  destruct Hwf as [Hsz Hsize Hstart Hblocks Hlinks].
  change (28 <= sz) in Hsz.
  destruct (DEBUG && linked b); [discriminate|].
  destruct (_ || _); [discriminate|].
  intros [= <-]. split; [|reflexivity].
  constructor; cbn [data blocks links set_links set_linked]; try assumption.
  change (data_size_of (set_links _ _)) with (data_size_of b).
  apply Forall_app. split; [assumption|]. constructor; [|constructor].
  assert (Hbo : blocks b !! bo = Some (GetBlockSize b bo))
    by (apply GetBlockSize_pos; lia).
  apply Hblocks in Hbo.
  assert (Hdst : bd + d <= data_size_of b).
  { destruct (decide (0 < GetBlockSize b bd)) as [Hp|Hp].
    - apply GetBlockSize_pos, Hblocks in Hp. lia.
    - lia. }
  unfold link_ok. cbn [origin destination].
  rewrite !u32_small by lia. lia.
Qed.

Lemma Build_container sz b :
  wf sz b ->
  data_size_of b + 8 * Z.of_nat (length (links b)) <= INT32_MAX ->
  let d := finalize_header (data b ++ links_bytes (links b)) (data_size_of b)
             (Z.of_nat (length (links b)))
             (u64 (data_size_of b - get_field (data b) f_start_offset)) in
  container sz (data_size_of b) (links b) d.
Proof.
  intros [Hsz Hsize Hstart Hblocks Hlinks] Hmax d.
  change (28 <= sz) in Hsz. unfold data_size_of in *.
  assert (Hlen : Z.of_nat (length d)
                 = Z.of_nat (length (data b)) + 8 * Z.of_nat (length (links b))).
  { subst d. rewrite length_finalize_header, length_app, length_links_bytes. lia. }
  assert (H28 : (28 <= length (data b ++ links_bytes (links b)))%nat)
    by (rewrite length_app; lia).
  pose proof (Header_finalize_header _ (Z.of_nat (length (data b)))
                (Z.of_nat (length (links b)))
                (u64 (Z.of_nat (length (data b)) - get_field (data b) f_start_offset))
                H28) as HH.
  fold d in HH.
  assert (Hd28 : Z.of_nat (length (data b ++ links_bytes (links b)))
                 = Z.of_nat (length (data b)) + 8 * Z.of_nat (length (links b)))
    by (rewrite length_app, length_links_bytes; lia).
  constructor.
  - change (28 <= sz <= Z.of_nat (length (data b))). lia.
  - exact Hlen.
  - lia.
  - apply (f_equal magic) in HH. exact HH.
  - apply (f_equal version) in HH. exact HH.
  - apply (f_equal links_count) in HH. cbn [Header links_count] in HH.
    rewrite HH. now rewrite u32_small by lia.
  - apply (f_equal links_table_offset) in HH. cbn [Header links_table_offset] in HH.
    rewrite HH. apply u32_small. lia.
  - apply (f_equal start_offset) in HH. cbn [Header start_offset] in HH.
    rewrite HH. rewrite get_field_app; [exact Hstart|]. unfold f_end. simpl. lia.
  - apply (f_equal file_size) in HH. cbn [Header file_size] in HH.
    rewrite HH, Hd28, Hlen. apply u32_small. lia.
  - subst d. rewrite drop_finalize_header by lia.
    rewrite Nat2Z.id. apply drop_app_length.
  - exact Hlinks.
Qed.

Lemma Build_wf sz b h b' :
  wf sz b -> wf_linked sz b ->
  data_size_of b + 8 * Z.of_nat (length (links b)) <= INT32_MAX ->
  Build b = (Ok h, b') ->
  wf sz b' /\ wf_linked sz b' /\ linked b' = true /\ links b' = links b /\
  h = Header (data b').
Proof.
  intros Hwf Hlk Hmax. rewrite Build_eq.
  destruct (linked b) eqn:Hl.
  { intros [= <- <-]. auto. }
  destruct (data_size_of b <? sizeof_DB_FILE); [discriminate|]. cbv zeta.
  destruct (_ && _); [discriminate|].
  intros [= <- <-].
  pose proof (Build_container sz b Hwf Hmax) as Hc. cbv zeta in Hc.
  set (d := finalize_header _ _ _ _) in *.
  pose proof (c_length _ _ _ _ Hc) as Hlen.
  destruct Hwf as [Hsz Hsize Hstart Hblocks Hlinks].
  assert (Hgrow : data_size_of b <= Z.of_nat (length d)) by lia.
  split; [|split; [|repeat split]].
  - constructor; unfold data_size_of;
      cbn [data blocks links set_data set_linked]; try assumption.
    + unfold data_size_of in *. lia.
    + exact (c_start _ _ _ _ Hc).
    + intros id size Hid. apply Hblocks in Hid. unfold data_size_of in *. lia.
    + eapply Forall_impl; [exact Hlinks|]. intros l. now apply link_ok_mono.
  - intros _. exists (data_size_of b). split; [exact Hc|exact Hgrow].
Qed.

Lemma run_call_wf DEBUG sz c b b' :
  wf sz b -> wf_linked sz b ->
  call_in_bounds b c ->
  run_call DEBUG c b = (Ok tt, b') ->
  wf sz b' /\ wf_linked sz b'.
Proof.
  intros Hwf Hlk Hin. destruct c as [buffer len|len|bo o bd d|]; cbn [run_call].
  - unfold bind. destruct (CreateBlock DEBUG buffer len b) as [[r|e|] b1] eqn:E;
      [|discriminate..].
    intros [= <-]. destruct (CreateBlock_wf _ _ _ _ _ _ _ Hwf Hin E) as [H1 H2].
    split; [exact H1|]. intros H. congruence.
  - unfold bind. destruct (CreateBlockInPlace DEBUG len b) as [[r|e|] b1] eqn:E;
      [|discriminate..].
    intros [= <-]. destruct (CreateBlockInPlace_wf _ _ _ _ _ _ Hwf Hin E) as [H1 H2].
    split; [exact H1|]. intros H. congruence.
  - intros E. destruct (CreateLink_wf _ _ _ _ _ _ _ _ Hwf Hin E) as [H1 H2].
    split; [exact H1|]. intros H. congruence.
  - unfold bind. destruct (Build b) as [[h|e|] b1] eqn:E; [|discriminate..].
    intros [= <-]. destruct (Build_wf _ _ _ _ Hwf Hlk Hin E) as (H1 & H2 & _).
    auto.
Qed.

Lemma run_calls_wf DEBUG sz cs :
  forall b b',
    wf sz b -> wf_linked sz b ->
    session_in_bounds DEBUG b cs ->
    run_calls DEBUG cs b = (Ok tt, b') ->
    wf sz b' /\ wf_linked sz b'.
Proof.
  induction cs as [|c cs IH]; intros b b' Hwf Hlk Hin; cbn [run_calls].
  - intros [= <-]. auto.
  - destruct Hin as [Hc Hcs]. unfold bind.
    destruct (run_call DEBUG c b) as [[[]|e|] b1] eqn:E; [|discriminate..].
    cbn [snd] in Hcs.
    destruct (run_call_wf _ _ _ _ _ Hwf Hlk Hc E) as [H1 H2].
    now apply IH.
Qed.

(** The file that [WriteToFile] writes from a builder that satisfies the
    invariant is the whole buffer, a container of the builder's links. *)
Lemma WriteToFile_container sz b file b' :
  wf sz b -> wf_linked sz b ->
  Z.of_nat (length (links b)) < 2 ^ 16 ->
  WriteToFile b = (Ok file, b') ->
  links b' = links b /\ file = data b' /\
  exists lo, container sz lo (links b') file.
Proof.
  intros Hwf Hlk Hn. unfold WriteToFile, bind at 1.
  destruct (Build b) as [[h|e|] b1] eqn:E; [|discriminate..].
  assert (Hb1 : wf_linked sz b1 /\ linked b1 = true /\ links b1 = links b /\
                h = Header (data b1)).
  { destruct (linked b) eqn:Hl.
    - rewrite Build_linked in E by assumption. injection E as <- <-. auto.
    - assert (Hmax : data_size_of b + 8 * Z.of_nat (length (links b)) <= INT32_MAX).
      { pose proof (wf_size _ _ Hwf) as Hsize.
        rewrite Build_eq, Hl in E.
        destruct (data_size_of b <? sizeof_DB_FILE); [discriminate|]. cbv zeta in E.
        destruct (negb _ && _) eqn:G; [discriminate|].
        apply andb_false_iff in G as [G|G].
        - apply negb_false_iff, Z.eqb_eq in G. lia.
        - pose proof (wf_sz _ _ Hwf) as Hsz. change (28 <= sz) in Hsz.
          change (2 ^ 16) with 65536 in Hn.
          unfold sizeof_DB_FILE_LINK, u64, wrap, INT32_MAX in *.
          change (2 ^ 64) with 18446744073709551616 in G.
          rewrite (Z.mod_small (8 * _)) in G by lia.
          rewrite Z.mod_small in G by lia. lia. }
      destruct (Build_wf _ _ _ _ Hwf Hlk Hmax E) as (_ & H2 & H3 & H4 & H5). auto. }
  destruct Hb1 as (Hlk1 & Hl1 & Hls & ->).
  destruct (Hlk1 Hl1) as (lo & Hc & Hlo).
  unfold bind, get. cbn [Header file_size].
  rewrite (c_file_size _ _ _ _ Hc). unfold data_size_of.
  rewrite Z.gtb_ltb, Z.ltb_irrefl. unfold ret. intros [= <- <-].
  rewrite Nat2Z.id, firstn_all. split; [exact Hls|]. split; [reflexivity|].
  exists lo. exact Hc.
Qed.

(** ** Loading a container *)

Lemma take_poke_above m off bs k :
  (k <= off)%nat -> take k (poke m off bs) = take k m.
Proof.
  intros Hk. apply list_eq. intros i.
  destruct (decide (i < k)%nat).
  - rewrite !lookup_take_lt by lia. apply lookup_poke_out. lia.
  - rewrite !lookup_take_ge by lia. reflexivity.
Qed.

Lemma slice_of_take (m : list byte) off n k :
  (off + n <= k)%nat -> take n (drop off (take k m)) = take n (drop off m).
Proof.
  intros Hk. apply list_eq. intros i.
  destruct (decide (i < n)%nat).
  - rewrite !lookup_take_lt, !lookup_drop by lia. apply lookup_take_lt. lia.
  - rewrite !lookup_take_ge by lia. reflexivity.
Qed.

Lemma frame_refl sz lo m : frame sz lo m m.
Proof. repeat split. Qed.

Lemma frame_resolve_link base sz lo m m' l :
  0 <= sz -> link_ok sz lo l -> frame sz lo m m' ->
  frame sz lo m (resolve_link base m' l).
Proof.
  intros Hsz (Ho & Hhi & _) (Hlen & Htake & Hdrop). unfold resolve_link.
  split; [|split].
  - now rewrite length_poke.
  - rewrite take_poke_above by lia. exact Htake.
  - rewrite drop_poke_below; [exact Hdrop|]. rewrite length_le_split.
    unfold sizeof_pointer. lia.
Qed.

Lemma peek_frame_low sz lo m m' off n :
  frame sz lo m m' -> (off + n <= Z.to_nat sz)%nat ->
  peek m' off n = peek m off n.
Proof.
  intros (_ & Htake & _) Hin. unfold peek.
  rewrite <- (slice_of_take m' off n (Z.to_nat sz)) by assumption.
  rewrite <- (slice_of_take m off n (Z.to_nat sz)) by assumption.
  now rewrite Htake.
Qed.

Lemma peek_frame_high sz lo m m' off n :
  frame sz lo m m' -> (Z.to_nat lo <= off)%nat ->
  peek m' off n = peek m off n.
Proof.
  intros (_ & _ & Hdrop) Hin. unfold peek.
  replace off with (Z.to_nat lo + (off - Z.to_nat lo))%nat by lia.
  rewrite <- !drop_drop. now rewrite Hdrop.
Qed.

Lemma get_field_frame sz lo m m' f :
  frame sz lo m m' -> sizeof_DB_FILE <= sz -> (f_end f <= 28)%nat ->
  get_field m' f = get_field m f.
Proof.
  intros Hf Hsz Hend. change (28 <= sz) in Hsz.
  apply (peek_frame_low sz lo); [assumption|]. unfold f_end in Hend. lia.
Qed.

(** *** The records of the table *)

Lemma drop_links_bytes ls k :
  drop (8 * k) (links_bytes ls) = links_bytes (drop k ls).
Proof.
  revert ls. induction k as [|k IH]; intros ls; [reflexivity|].
  destruct ls as [|l ls].
  - rewrite !drop_nil. unfold links_bytes. simpl. now rewrite ?drop_nil.
  - replace (8 * S k)%nat with (8 + 8 * k)%nat by lia.
    change (links_bytes (l :: ls)) with (link_bytes l ++ links_bytes ls).
    rewrite <- drop_drop.
    rewrite (drop_app_length' (link_bytes l)) by (now rewrite length_link_bytes).
    apply IH.
Qed.

Lemma peek_record m lo ls k l :
  drop lo m = links_bytes ls ->
  ls !! k = Some l ->
  peek m (lo + 8 * k) 4 = u32 (origin l) /\
  peek m (lo + 8 * k + 4) 4 = u32 (destination l).
Proof.
  intros Hm Hk. unfold peek.
  assert (Hd : drop (lo + 8 * k) m
               = le_split 4 (origin l) ++ le_split 4 (destination l)
                 ++ links_bytes (drop (S k) ls)).
  { rewrite <- drop_drop, Hm, drop_links_bytes.
    rewrite (drop_S _ _ _ Hk).
    change (links_bytes (l :: drop (S k) ls))
      with (link_bytes l ++ links_bytes (drop (S k) ls)).
    unfold link_bytes. now rewrite <- app_assoc. }
  split.
  - rewrite Hd. rewrite take_app_length' by (now rewrite length_le_split).
    apply le_combine_split.
  - rewrite <- drop_drop, Hd.
    rewrite drop_app_length' by (now rewrite length_le_split).
    rewrite take_app_length' by (now rewrite length_le_split).
    apply le_combine_split.
Qed.

(** *** One access *)

Lemma load_ok off n m :
  0 <= off -> off + Z.of_nat n <= Z.of_nat (length m) ->
  load off n m = (Ok (peek m (Z.to_nat off) n), m).
Proof.
  intros H0 H1. rewrite load_eq. unfold in_bounds.
  replace (0 <=? off) with true by (symmetry; now apply Z.leb_le).
  replace (off + Z.of_nat n <=? Z.of_nat (length m)) with true
    by (symmetry; now apply Z.leb_le).
  reflexivity.
Qed.

Lemma store_ok off n v m :
  0 <= off -> off + Z.of_nat n <= Z.of_nat (length m) ->
  store off n v m = (Ok tt, poke m (Z.to_nat off) (le_split n v)).
Proof.
  intros H0 H1. rewrite store_eq. unfold in_bounds.
  replace (0 <=? off) with true by (symmetry; now apply Z.leb_le).
  replace (off + Z.of_nat n <=? Z.of_nat (length m)) with true
    by (symmetry; now apply Z.leb_le).
  reflexivity.
Qed.

Lemma link_loop_eq base fuel links i :
  link_loop base fuel links i =
  (let* count := load_field f_links_count in
   if i <? count then
     match fuel with
     | O => undefined
     | S fuel =>
         let link := links + sizeof_DB_FILE_LINK * i in
         let* o := load link 4 in
         let* size := load_field f_file_size in
         throw_if (o >? size) LinkAfterEnd ;;;
         let* d := load (link + 4) 4 in
         let* size := load_field f_file_size in
         throw_if (d >? size) LinkAfterEnd ;;;
         store o sizeof_pointer (u64 (base + d)) ;;;
         link_loop base fuel links (u64 (i + 1))
     end
   else ret tt).
Proof. destruct fuel; reflexivity. Qed.

(** *** The fuel of the loop

    [links_count] is read as a [uint16_t] at every turn, so the index
    stays below [2^16]: the [max_links] units of fuel that
    [ValidateAndLink] gives to the loop are never used up, whatever the
    memory holds, and more fuel changes nothing. *)

Lemma bind_ext_ok {S A B} (m : M S A) (k k' : A -> M S B) s :
  (forall a s', m s = (Ok a, s') -> k a s' = k' a s') ->
  bind m k s = bind m k' s.
Proof. intros H. unfold bind. destruct (m s) as [[a|e|] s']; auto. Qed.

Lemma load_field_bound f m c m' :
  load_field f m = (Ok c, m') -> 0 <= c < 2 ^ (8 * Z.of_nat (f_size f)).
Proof.
  unfold load_field. rewrite load_eq. destruct (in_bounds _ _ _); [|discriminate].
  intros [= <- _]. apply peek_bound.
Qed.

Lemma link_loop_fuel base links fuel :
  forall fuel' i m,
    0 <= i ->
    2 ^ 16 <= i + Z.of_nat fuel ->
    2 ^ 16 <= i + Z.of_nat fuel' ->
    link_loop base fuel links i m = link_loop base fuel' links i m.
Proof.
  change (2 ^ 16) with 65536.
  induction fuel as [|fuel IH]; intros fuel' i m Hi Hf Hf';
    rewrite (link_loop_eq base _ links i), (link_loop_eq base fuel' links i);
    apply bind_ext_ok; intros c m' Hc;
    apply load_field_bound in Hc; change (2 ^ (8 * Z.of_nat (f_size f_links_count)))
      with 65536 in Hc;
    destruct (i <? c) eqn:E; try reflexivity; apply Z.ltb_lt in E.
  - lia.
  - destruct fuel' as [|fuel']; [lia|].
    repeat (apply bind_ext_ok; intros ? ? _).
    replace (u64 (i + 1)) with (i + 1)
      by (symmetry; apply Z.mod_small; change (2 ^ 64) with 18446744073709551616; lia).
    apply IH; lia.
Qed.

Lemma max_links_enough base links fuel m :
  (max_links <= fuel)%nat ->
  link_loop base fuel links 0 m = link_loop base max_links links 0 m.
Proof.
  intros H. pose proof Z_of_max_links.
  apply link_loop_fuel; change (2 ^ 16) with 65536; lia.
Qed.

(** *** The loop over the records *)

Lemma resolve_links_cons base l ls m :
  resolve_links base (l :: ls) m = resolve_links base ls (resolve_link base m l).
Proof. reflexivity. Qed.

Lemma link_loop_resolves base sz lo ls m :
  container sz lo ls m ->
  Z.of_nat (length ls) < 2 ^ 16 ->
  forall post pre fuel m',
    ls = pre ++ post ->
    frame sz lo m m' ->
    (length post <= fuel)%nat ->
    link_loop base fuel lo (Z.of_nat (length pre)) m'
    = (Ok tt, resolve_links base post m').
Proof.
  intros Hc Hn.
  pose proof (c_sz _ _ _ _ Hc) as [Hsz Hlo]. change (28 <= sz) in Hsz.
  pose proof (c_length _ _ _ _ Hc) as Hlen.
  pose proof (c_max _ _ _ _ Hc) as Hmax. unfold INT32_MAX in Hmax.
  change (2 ^ 16) with 65536 in Hn.
  assert (Hcount : forall m', frame sz lo m m' ->
            load_field f_links_count m' = (Ok (Z.of_nat (length ls)), m')).
  { intros m' Hf. rewrite load_field_ok.
    - rewrite (get_field_frame sz lo m m') by
        (assumption || (unfold f_end; simpl; lia)).
      rewrite (c_count _ _ _ _ Hc). unfold u16, wrap.
      rewrite Z.mod_small; [reflexivity|]. change (2 ^ 16) with 65536. lia.
    - destruct Hf as (Hl & _). rewrite Hl. unfold f_end. simpl. lia. }
  assert (Hsize : forall m', frame sz lo m m' ->
            load_field f_file_size m' = (Ok (Z.of_nat (length m)), m')).
  { intros m' Hf. rewrite load_field_ok.
    - rewrite (get_field_frame sz lo m m') by
        (assumption || (unfold f_end; simpl; lia)).
      now rewrite (c_file_size _ _ _ _ Hc).
    - destruct Hf as (Hl & _). rewrite Hl. unfold f_end. simpl. lia. }
  induction post as [|l post IH]; intros pre fuel m' Hls Hf Hfuel;
    rewrite link_loop_eq; cbv [bind throw_if ret]; rewrite (Hcount m' Hf).
  - rewrite app_nil_r in Hls. subst pre.
    now rewrite Z.ltb_irrefl.
  - assert (Hk : ls !! length pre = Some l)
      by (rewrite Hls; apply list_lookup_middle; reflexivity).
    assert (Hlt : Z.of_nat (length pre) < Z.of_nat (length ls)).
    { rewrite Hls, length_app. cbn [length]. lia. }
    replace (Z.of_nat (length pre) <? Z.of_nat (length ls)) with true
      by (symmetry; now apply Z.ltb_lt).
    destruct fuel as [|fuel]; [cbn [length] in Hfuel; lia|].
    pose proof (c_links _ _ _ _ Hc) as Hls_ok.
    assert (Hl_ok : link_ok sz lo l).
    { eapply Forall_lookup_1; [exact Hls_ok|exact Hk]. }
    destruct Hl_ok as (Ho & Hoe & Hd).
    destruct (peek_record m (Z.to_nat lo) ls (length pre) l) as [Hpo Hpd];
      [rewrite <- (c_records _ _ _ _ Hc); reflexivity|exact Hk|].
    pose proof Hf as (Hlen' & _ & _).
    unfold sizeof_DB_FILE_LINK.
    (* the origin of the record *)
    rewrite load_ok by lia.
    rewrite (peek_frame_high sz lo m m') by (assumption || lia).
    replace (Z.to_nat (lo + 8 * Z.of_nat (length pre)))
      with (Z.to_nat lo + 8 * length pre)%nat by lia.
    rewrite Hpo, (Hsize m' Hf), u32_small by (unfold INT32_MAX; lia).
    replace (origin l >? Z.of_nat (length m)) with false
      by (symmetry; rewrite Z.gtb_ltb; apply Z.ltb_ge; lia).
    (* the destination of the record *)
    rewrite load_ok by lia.
    rewrite (peek_frame_high sz lo m m') by (assumption || lia).
    replace (Z.to_nat (lo + 8 * Z.of_nat (length pre) + 4))
      with (Z.to_nat lo + 8 * length pre + 4)%nat by lia.
    rewrite Hpd, (Hsize m' Hf), u32_small by (unfold INT32_MAX; lia).
    replace (destination l >? Z.of_nat (length m)) with false
      by (symmetry; rewrite Z.gtb_ltb; apply Z.ltb_ge; lia).
    (* the store *)
    rewrite store_ok by (unfold sizeof_pointer; lia).
    fold (resolve_link base m' l).
    replace (u64 (Z.of_nat (length pre) + 1))
      with (Z.of_nat (length (pre ++ [l]))).
    2:{ rewrite length_app. cbn [length]. unfold u64, wrap.
        rewrite Z.mod_small; lia. }
    rewrite resolve_links_cons. apply IH.
    + now rewrite <- app_assoc.
    + apply frame_resolve_link; [lia| |assumption]. unfold link_ok. lia.
    + cbn [length] in Hfuel. lia.
Qed.

(** Loading a container succeeds and performs the stores of its links,
    in order, and nothing else. *)
Lemma ValidateAndLink_container base sz lo ls m len :
  container sz lo ls m ->
  Z.of_nat (length ls) < 2 ^ 16 ->
  file_too_small len = false ->
  len = 0 \/ Z.of_nat (length m) <= len ->
  ValidateAndLink base len m = (Ok tt, resolve_links base ls m).
Proof.
  intros Hc Hn Hft Hlen.
  pose proof (c_sz _ _ _ _ Hc) as [Hsz Hlo]. change (28 <= sz) in Hsz.
  pose proof (c_length _ _ _ _ Hc) as Hl.
  assert (Hfield : forall f, (f_end f <= 28)%nat ->
            load_field f m = (Ok (get_field m f), m))
    by (intros f Hf; apply load_field_ok; lia).
  unfold ValidateAndLink. rewrite Hft. cbv [bind throw_if ret].
  rewrite (Hfield f_magic), (c_magic _ _ _ _ Hc) by (unfold f_end; simpl; lia).
  rewrite Z.eqb_refl. cbn [negb].
  rewrite (Hfield f_version), (c_version _ _ _ _ Hc) by (unfold f_end; simpl; lia).
  change (DB_FILE_CURR_VERSION <? DB_FILE_MIN_VERSION) with false.
  destruct (len =? 0) eqn:E0; cbv beta iota.
  2: (apply Z.eqb_neq in E0;
      rewrite (Hfield f_file_size), (c_file_size _ _ _ _ Hc)
        by (unfold f_end; simpl; lia);
      replace (Z.of_nat (length m) >? len) with false
        by (symmetry; rewrite Z.gtb_ltb; apply Z.ltb_ge; lia);
      cbv beta iota).
  all: rewrite (Hfield f_start_offset), (c_start _ _ _ _ Hc)
         by (unfold f_end; simpl; lia).
  all: rewrite (Hfield f_file_size), (c_file_size _ _ _ _ Hc)
         by (unfold f_end; simpl; lia).
  all: replace (sz >? Z.of_nat (length m)) with false
         by (symmetry; rewrite Z.gtb_ltb; apply Z.ltb_ge; lia).
  all: cbv beta iota.
  all: rewrite (Hfield f_version), (c_version _ _ _ _ Hc)
         by (unfold f_end; simpl; lia).
  all: change (DB_FILE_CURR_VERSION >=? LINKING) with true; cbv beta iota.
  all: rewrite (Hfield f_links_table_offset), (c_offset _ _ _ _ Hc)
         by (unfold f_end; simpl; lia).
  all: pose proof Z_of_max_links; change (2 ^ 16) with 65536 in Hn.
  all: apply (link_loop_resolves base sz lo ls m Hc Hn ls [] max_links m);
    [reflexivity|apply frame_refl|lia].
Qed.

(** *** What the stores leave in the buffer *)

Lemma length_resolve_links base ls m :
  length (resolve_links base ls m) = length m.
Proof.
  revert m. induction ls as [|l ls IH]; intros m; [reflexivity|].
  rewrite resolve_links_cons, IH. apply length_poke.
Qed.

Lemma resolve_links_outside base ls m (i : nat) :
  Forall (fun l => 0 <= origin l) ls ->
  (forall l, l ∈ ls -> ~ in_slot l (Z.of_nat i)) ->
  resolve_links base ls m !! i = m !! i.
Proof.
  revert m. induction ls as [|l ls IH]; intros m Hpos Hout; [reflexivity|].
  apply Forall_cons in Hpos as [Hl Hpos].
  rewrite resolve_links_cons, IH.
  - apply lookup_poke_out. rewrite length_le_split.
    assert (Hn : ~ in_slot l (Z.of_nat i)) by (apply Hout; left).
    unfold in_slot, sizeof_pointer in *. lia.
  - exact Hpos.
  - intros l' Hl'. apply Hout. now right.
Qed.

Lemma resolve_links_disjoint base ls m l :
  0 <= origin l ->
  Forall (fun l' => 0 <= origin l' /\ slots_disjoint l l') ls ->
  peek (resolve_links base ls m) (Z.to_nat (origin l)) 8
  = peek m (Z.to_nat (origin l)) 8.
Proof.
  intros Hl. revert m. induction ls as [|l' ls IH]; intros m Hd; [reflexivity|].
  apply Forall_cons in Hd as [[Hl' Hdis] Hd].
  rewrite resolve_links_cons, IH by exact Hd.
  apply peek_poke_other. rewrite length_le_split.
  unfold slots_disjoint, sizeof_pointer in *. lia.
Qed.

Lemma resolve_links_slot base pre l post m :
  Forall (fun l' => 0 <= origin l') (pre ++ l :: post) ->
  origin l + 8 <= Z.of_nat (length m) ->
  Forall (slots_disjoint l) post ->
  peek (resolve_links base (pre ++ l :: post) m) (Z.to_nat (origin l)) 8
  = u64 (base + destination l).
Proof.
  intros Hpos Hin Hdis.
  apply Forall_app in Hpos as [_ Hpos]. apply Forall_cons in Hpos as [Hl Hpos].
  unfold resolve_links. rewrite fold_left_app. cbn [fold_left].
  fold (resolve_links base pre m).
  fold (resolve_links base post (resolve_link base (resolve_links base pre m) l)).
  rewrite resolve_links_disjoint.
  - unfold resolve_link. rewrite peek_poke_same.
    + unfold u64, wrap, sizeof_pointer. apply Zmod_mod.
    + rewrite length_resolve_links. unfold sizeof_pointer. lia.
  - exact Hl.
  - rewrite Forall_forall in *. intros l' Hl'. split; [now apply Hpos|now apply Hdis].
Qed.

(** ** Round trip *)

(** C1, as the code has it.  Take a builder of [sz >= sizeof(DB_FILE)]
    initial bytes, any sequence of calls within the build-time bounds
    (the destination block ids being offsets of the buffer), fewer than
    [2^16] links, and [WriteToFile]; let the file pass the length test
    of the reader.  Then the reader, given the file read at the address
    [base], succeeds; the loaded buffer has the bytes of the file
    outside the 8-byte slots of the links; and every slot that no later
    link's slot overlaps holds the address [base + destination]. *)
Theorem round_trip DEBUG sz cs file b base :
  sizeof_DB_FILE <= sz <= INT32_MAX ->
  session_in_bounds DEBUG (DBFileBuilder_new sz) cs ->
  (run_calls DEBUG cs ;;; WriteToFile) (DBFileBuilder_new sz) = (Ok file, b) ->
  Z.of_nat (length (links b)) < 2 ^ 16 ->
  file_too_small (Z.of_nat (length file)) = false ->
  exists m',
    DBFileReader_path base file = (Ok tt, m') /\
    length m' = length file /\
    (forall i : nat,
        (forall l, l ∈ links b -> ~ in_slot l (Z.of_nat i)) ->
        m' !! i = file !! i) /\
    (forall k l,
        links b !! k = Some l ->
        (forall j l', (k < j)%nat -> links b !! j = Some l' -> slots_disjoint l l') ->
        peek m' (Z.to_nat (origin l)) 8 = u64 (base + destination l)).
Proof.
  intros Hsz Hin Hrun Hn Hft.
  destruct (wf_new sz Hsz) as [Hwf0 Hlk0].
  unfold bind in Hrun.
  destruct (run_calls DEBUG cs (DBFileBuilder_new sz)) as [[[]|e|] b1] eqn:E;
    [|discriminate..].
  destruct (run_calls_wf _ _ _ _ _ Hwf0 Hlk0 Hin E) as [Hwf1 Hlk1].
  assert (Hls : links b = links b1 /\ exists lo, container sz lo (links b) file).
  { assert (Hb : links b = links b1).
    { revert Hrun. unfold WriteToFile, bind, get.
      destruct (Build b1) as [[h|e|] b2] eqn:EB; [|discriminate..].
      destruct (_ >? _); [discriminate|]. intros [= _ <-].
      rewrite Build_eq in EB. destruct (linked b1).
      - now injection EB as _ <-.
      - destruct (_ <? _); [discriminate|]. cbv zeta in EB.
        destruct (_ && _); [discriminate|]. now injection EB as _ <-. }
    split; [exact Hb|]. rewrite Hb in Hn.
    destruct (WriteToFile_container _ _ _ _ Hwf1 Hlk1 Hn Hrun) as (_ & _ & lo & Hc).
    exists lo. exact Hc. }
  destruct Hls as (_ & lo & Hc).
  pose proof (c_sz _ _ _ _ Hc) as [Hsz' Hlo]. change (28 <= sz) in Hsz'.
  assert (Hpos : Forall (fun l => 0 <= origin l) (links b)).
  { eapply Forall_impl; [exact (c_links _ _ _ _ Hc)|].
    intros l (Ho & _). lia. }
  exists (resolve_links base (links b) file).
  split; [|split; [|split]].
  - unfold DBFileReader_path.
    apply (ValidateAndLink_container base sz lo); [assumption..|right; lia].
  - apply length_resolve_links.
  - intros i Hout. now apply resolve_links_outside.
  - intros k l Hk Hlater.
    destruct (list_elem_of_split_length _ _ _ Hk) as (pre & post & Heq & Hlen).
    rewrite Heq. apply resolve_links_slot.
    + now rewrite <- Heq.
    + pose proof (Forall_lookup_1 _ _ _ _ (c_links _ _ _ _ Hc) Hk) as (_ & Hhi & _).
      pose proof (c_length _ _ _ _ Hc). lia.
    + apply Forall_lookup_2. intros j l' Hj.
      apply (Hlater (length pre + S j)%nat); [lia|].
      rewrite Heq. rewrite lookup_app_r by lia.
      replace (length pre + S j - length pre)%nat with (S j) by lia.
      exact Hj.
Qed.

Lemma round_trip_witness :
  let r := (run_calls false scenario_calls ;;; WriteToFile) (DBFileBuilder_new 112) in
  exists m',
    fst r = Ok (file_of r) /\
    DBFileReader_path 4096 (file_of r) = (Ok tt, m') /\
    peek m' 112 8 = 4096 + 128.
Proof.
  intros r.
  assert (Hlinks : links (snd r) = [mkLink 112 128]) by (vm_compute; reflexivity).
  destruct (round_trip false 112 scenario_calls (file_of r) (snd r) 4096)
    as (m' & Hr & _ & _ & Hslot).
  - vm_compute. split; discriminate.
  - vm_compute. intuition discriminate.
  - vm_compute. reflexivity.
  - rewrite Hlinks. reflexivity.
  - vm_compute. reflexivity.
  - exists m'. split; [vm_compute; reflexivity|]. split; [exact Hr|].
    apply (Hslot 0%nat (mkLink 112 128)).
    + rewrite Hlinks. reflexivity.
    + intros j l' Hj Hl'. rewrite Hlinks in Hl'.
      destruct j as [|j]; [lia|]. discriminate.
Defined.

(** C1, as stated, fails in two ways that the builder accepts by design.
    - [CreateLink] looks up sizes only: a destination block id that is
      no offset of the buffer has size 0 and passes with destination
      offset 0, and the reader then refuses the file.
    - Two links whose slots overlap are both recorded: the second store
      of the reader overwrites half of the first slot, which no longer
      holds its address. *)
Lemma round_trip_fails_for_stray_and_overlapping_links :
  (let b := snd (CreateBlock false (replicate 8 Byte.x00) 8 (DBFileBuilder_new 112)) in
   let r := (run_calls false
               [ Call_CreateBlock (replicate 8 Byte.x00) 8;
                 Call_CreateLink 112 0 2147483647 0 ] ;;; WriteToFile)
              (DBFileBuilder_new 112) in
   (0 + 8 <= GetBlockSize b 112 /\ 0 <= GetBlockSize b 2147483647) /\
   fst r = Ok (file_of r) /\
   DBFileReader_path 4096 (file_of r) = (Throw LinkAfterEnd, file_of r)) /\
  (let cs := [ Call_CreateBlock (replicate 16 Byte.x00) 16;
               Call_CreateLink 112 0 112 0;
               Call_CreateLink 112 4 112 0 ] in
   let r := (run_calls false cs ;;; WriteToFile) (DBFileBuilder_new 112) in
   session_in_bounds false (DBFileBuilder_new 112) cs /\
   fst r = Ok (file_of r) /\
   fst (DBFileReader_path 4096 (file_of r)) = Ok tt /\
   peek (snd (DBFileReader_path 4096 (file_of r))) 112 8 <> 4096 + 112).
Proof. vm_compute. intuition discriminate. Qed.

(** * Further properties of the builder *)

(** ** Creating blocks *)

(** X1.  [CreateBlock(buffer, len)] with [len > 0], on a builder that
    the assertion lets through and within the size cap, returns the
    former length of the buffer as block id, appends the first [len]
    bytes of [buffer] and nothing else, records [len] as the size of the
    new block, and leaves the sizes of the other blocks and the links as
    they are. *)
Theorem CreateBlock_appends DEBUG buffer len b :
  DEBUG && linked b = false ->
  0 < len <= Z.of_nat (length buffer) ->
  data_size_of b + len <= INT32_MAX ->
  exists b',
    CreateBlock DEBUG buffer len b = (Ok (data_size_of b), b') /\
    data b' = data b ++ take (Z.to_nat len) buffer /\
    take (Z.to_nat len) (drop (Z.to_nat (data_size_of b)) (data b'))
    = take (Z.to_nat len) buffer /\
    GetBlockSize b' (data_size_of b) = len /\
    (forall id, id <> data_size_of b -> GetBlockSize b' id = GetBlockSize b id) /\
    links b' = links b.
Proof.
  intros Hl Hlen Hmax.
  assert (H0 : 0 <= data_size_of b) by (unfold data_size_of; lia).
  rewrite CreateBlock_eq, Hl. cbv zeta.
  destruct (len =? 0) eqn:E0; [lia|].
  rewrite u64_small by lia.
  destruct (_ >? INT32_MAX) eqn:E1; [lia|].
  destruct (len >? _) eqn:E2; [lia|].
  rewrite !u32_small by lia.
  eexists. split; [reflexivity|].
  unfold GetBlockSize. cbn [data blocks links set_blocks set_data set_linked].
  split; [reflexivity|]. split; [|split; [|split]].
  - unfold data_size_of. rewrite Nat2Z.id, drop_app_length.
    apply take_idemp.
  - now rewrite lookup_insert_eq.
  - intros id Hid. now rewrite lookup_insert_ne by congruence.
  - reflexivity.
Qed.

Lemma CreateBlock_appends_witness :
  exists b',
    CreateBlock false [Byte.x0a; Byte.x0b; Byte.x0c; Byte.x0d] 3 (DBFileBuilder_new 112)
    = (Ok 112, b') /\
    drop 112 (data b') = [Byte.x0a; Byte.x0b; Byte.x0c] /\
    GetBlockSize b' 112 = 3.
Proof.
  destruct (CreateBlock_appends false [Byte.x0a; Byte.x0b; Byte.x0c; Byte.x0d] 3
              (DBFileBuilder_new 112))
    as (b' & Hr & Hd & _ & Hs & _);
    [reflexivity | vm_compute; intuition discriminate | vm_compute; discriminate |].
  exists b'. split; [exact Hr|]. split; [rewrite Hd; reflexivity|exact Hs].
Defined.

(** X2.  The overload [CreateBlock(len)] with [len > 0], under the same
    conditions, returns the former length of the buffer, appends [len]
    zero bytes ([std::vector::resize] value-initializes) and records
    [len] as the size of the block. *)
Theorem CreateBlockInPlace_appends_zeros DEBUG len b :
  DEBUG && linked b = false ->
  0 < len ->
  data_size_of b + len <= INT32_MAX ->
  exists b',
    CreateBlockInPlace DEBUG len b = (Ok (data_size_of b), b') /\
    data b' = data b ++ replicate (Z.to_nat len) Byte.x00 /\
    GetBlockSize b' (data_size_of b) = len /\
    (forall id, id <> data_size_of b -> GetBlockSize b' id = GetBlockSize b id) /\
    links b' = links b.
Proof.
  intros Hl Hlen Hmax.
  assert (H0 : 0 <= data_size_of b) by (unfold data_size_of; lia).
  rewrite CreateBlockInPlace_eq, Hl. cbv zeta.
  destruct (len =? 0) eqn:E0; [lia|].
  rewrite u64_small by lia.
  destruct (_ >? INT32_MAX) eqn:E1; [lia|].
  rewrite !u32_small by lia.
  eexists. split; [reflexivity|].
  unfold GetBlockSize. cbn [data blocks links set_blocks set_data set_linked].
  split; [|split; [|split]].
  - unfold data_size_of. apply resize_grow. lia.
  - now rewrite lookup_insert_eq.
  - intros id Hid. now rewrite lookup_insert_ne by congruence.
  - reflexivity.
Qed.

Lemma CreateBlockInPlace_appends_zeros_witness :
  exists b',
    CreateBlockInPlace false 4 (DBFileBuilder_new 112) = (Ok 112, b') /\
    drop 112 (data b') = replicate 4 Byte.x00 /\
    GetBlockSize b' 112 = 4.
Proof.
  destruct (CreateBlockInPlace_appends_zeros false 4 (DBFileBuilder_new 112))
    as (b' & Hr & Hd & Hs & _);
    [reflexivity | reflexivity | vm_compute; discriminate |].
  exists b'. split; [exact Hr|]. split; [rewrite Hd; reflexivity|exact Hs].
Defined.

(** ** Sessions *)

Lemma session_wf DEBUG sz cs b :
  sizeof_DB_FILE <= sz <= INT32_MAX ->
  session_in_bounds DEBUG (DBFileBuilder_new sz) cs ->
  run_calls DEBUG cs (DBFileBuilder_new sz) = (Ok tt, b) ->
  wf sz b /\ wf_linked sz b.
Proof.
  intros Hsz Hin Hrun. destruct (wf_new sz Hsz) as [H1 H2].
  exact (run_calls_wf _ _ _ _ _ H1 H2 Hin Hrun).
Qed.

(** An invariant of the builder that every call within its bounds keeps
    holds at the end of a session. *)
Lemma run_calls_invariant DEBUG sz (P : DBFileBuilder -> Prop) :
  (forall c b b',
      wf sz b -> wf_linked sz b -> P b -> call_in_bounds b c ->
      run_call DEBUG c b = (Ok tt, b') -> P b') ->
  forall cs b b',
    wf sz b -> wf_linked sz b -> P b ->
    session_in_bounds DEBUG b cs ->
    run_calls DEBUG cs b = (Ok tt, b') -> P b'.
Proof.
  intros Hstep. induction cs as [|c cs IH]; intros b b' Hwf Hlk HP Hin;
    cbn [run_calls].
  - now intros [= <-].
  - destruct Hin as [Hc Hcs]. unfold bind.
    destruct (run_call DEBUG c b) as [[[]|e|] b1] eqn:E; [|discriminate..].
    cbn [snd] in Hcs.
    destruct (run_call_wf _ _ _ _ _ Hwf Hlk Hc E) as [H1 H2].
    apply IH; try assumption. exact (Hstep _ _ _ Hwf Hlk HP Hc E).
Qed.



(** ** Creating links *)

(** X4.  Whatever its arguments and the state of the builder,
    [CreateLink] never changes the buffer or the recorded sizes and
    never reads outside them; when it throws, with "builder already
    linked!" or with the bounds error, the links are as before, and when
    it returns it has appended exactly one record, the two absolute
    offsets reduced to 32 bits. *)
Theorem CreateLink_changes_links_only DEBUG bo o bd d b :
  let r := CreateLink DEBUG bo o bd d b in
  data (snd r) = data b /\
  blocks (snd r) = blocks b /\
  fst r <> Undefined /\
  (fst r = Ok tt ->
   links (snd r) = links b ++ [mkLink (u32 (bo + o)) (u32 (bd + d))]) /\
  (forall e, fst r = Throw e ->
             links (snd r) = links b /\
             (e = BuilderAlreadyLinked \/ e = LinkAfterBlockEnd)).
Proof.
  cbv zeta. rewrite CreateLink_eq.
  destruct (DEBUG && linked b); [|cbv zeta; destruct (_ || _)];
    cbn [fst snd data blocks links set_links set_linked];
    (split; [reflexivity|]); (split; [reflexivity|]);
    (split; [discriminate|]); (split; [try discriminate; reflexivity|]);
    intros e' He'; try discriminate; injection He' as <-; auto.
Qed.

(** X5.  A link whose origin block id has no recorded size (an id that
    [CreateBlock] never returned, or the id of a zero-length block) is
    refused for every origin offset on which [origin + 8] does not wrap
    around, and nothing is recorded. *)
Theorem CreateLink_unknown_origin DEBUG bo o bd d b :
  blocks b !! bo = None ->
  0 <= o < 2 ^ 32 - 8 ->
  exists e b',
    CreateLink DEBUG bo o bd d b = (Throw e, b') /\
    links b' = links b /\ data b' = data b /\ blocks b' = blocks b.
Proof.
  intros Hbo Ho. apply CreateLink_refuses_without_wrap; [lia..|].
  left. unfold GetBlockSize. rewrite Hbo. lia.
Qed.

Lemma CreateLink_unknown_origin_witness :
  exists e b',
    CreateLink false 500 0 112 0 (DBFileBuilder_new 112) = (Throw e, b') /\
    links b' = [].
Proof.
  destruct (CreateLink_unknown_origin false 500 0 112 0 (DBFileBuilder_new 112))
    as (e & b' & Hr & Hl & _);
    [reflexivity | vm_compute; intuition discriminate |].
  exists e, b'. split; [exact Hr|exact Hl].
Defined.

(** ** What a session keeps *)

Lemma run_call_blocks DEBUG sz c b b' :
  wf sz b -> blocks_disjoint b -> call_in_bounds b c ->
  run_call DEBUG c b = (Ok tt, b') -> blocks_disjoint b'.
Proof.
  intros Hwf Hdis Hin.
  pose proof (wf_size _ _ Hwf) as Hsize. pose proof (wf_sz _ _ Hwf) as H28.
  change (28 <= sz) in H28.
  assert (Hnew : forall len m,
             0 < len ->
             m = <[data_size_of b := len]> (blocks b) ->
             forall id1 size1 id2 size2,
               m !! id1 = Some size1 -> m !! id2 = Some size2 ->
               id1 <> id2 -> id1 + size1 <= id2 \/ id2 + size2 <= id1).
  { intros len m Hlen -> id1 size1 id2 size2.
    rewrite !lookup_insert.
    destruct (decide (data_size_of b = id1)) as [<-|H1];
      destruct (decide (data_size_of b = id2)) as [<-|H2].
    - congruence.
    - intros [= <-] E2 _. apply (wf_blocks _ _ Hwf) in E2. lia.
    - intros E1 [= <-] _. apply (wf_blocks _ _ Hwf) in E1. lia.
    - apply Hdis. }
  destruct c as [buffer len|len|bo o bd d|]; cbn [run_call].
  - destruct Hin as [Hlen Hmax]. unfold bind. rewrite CreateBlock_eq. cbv zeta.
    destruct (DEBUG && linked b); [discriminate|].
    destruct (len =? 0) eqn:E0; [intros [= <-]; exact Hdis|].
    apply Z.eqb_neq in E0.
    destruct (_ >? INT32_MAX); [discriminate|].
    destruct (len >? _); [discriminate|].
    intros [= <-]. rewrite !u32_small by lia.
    unfold blocks_disjoint. cbn [blocks set_blocks]. apply (Hnew len); [lia|reflexivity].
  - destruct Hin as [Hlen Hmax]. unfold bind. rewrite CreateBlockInPlace_eq. cbv zeta.
    destruct (DEBUG && linked b); [discriminate|].
    destruct (len =? 0) eqn:E0; [intros [= <-]; exact Hdis|].
    apply Z.eqb_neq in E0.
    destruct (_ >? INT32_MAX); [discriminate|].
    intros [= <-]. rewrite !u32_small by lia.
    unfold blocks_disjoint. cbn [blocks set_blocks]. apply (Hnew len); [lia|reflexivity].
  - rewrite CreateLink_eq. destruct (DEBUG && linked b); [discriminate|].
    cbv zeta. destruct (_ || _); [discriminate|]. intros [= <-]. exact Hdis.
  - unfold bind. rewrite Build_eq. destruct (linked b).
    + intros [= <-]. exact Hdis.
    + destruct (_ <? _); [discriminate|]. cbv zeta.
      destruct (_ && _); [discriminate|]. intros [= <-]. exact Hdis.
Qed.

(** X6.  At the end of every session within the build-time bounds, each
    recorded block has a positive size and lies between the initial
    [sizeof(DBFileBuilder)] bytes and the end of the buffer, and no two
    recorded blocks share a byte. *)
Theorem session_blocks_disjoint DEBUG sz cs b :
  sizeof_DB_FILE <= sz <= INT32_MAX ->
  session_in_bounds DEBUG (DBFileBuilder_new sz) cs ->
  run_calls DEBUG cs (DBFileBuilder_new sz) = (Ok tt, b) ->
  (forall id size,
      blocks b !! id = Some size ->
      sz <= id /\ 0 < size /\ id + size <= data_size_of b) /\
  blocks_disjoint b.
Proof.
  intros Hsz Hin Hrun. destruct (wf_new sz Hsz) as [Hwf0 Hlk0].
  split.
  - destruct (session_wf _ _ _ _ Hsz Hin Hrun) as [Hwf _].
    exact (wf_blocks _ _ Hwf).
  - apply (run_calls_invariant DEBUG sz blocks_disjoint) with (cs := cs)
      (b := DBFileBuilder_new sz); try assumption.
    + intros c b0 b1 Hwf _ HP Hc E. exact (run_call_blocks _ _ _ _ _ Hwf HP Hc E).
    + intros id1 size1 id2 size2 E. simpl in E. rewrite lookup_empty in E.
      discriminate.
Qed.

Lemma session_blocks_disjoint_witness :
  let b := snd (run_calls false scenario_calls (DBFileBuilder_new 112)) in
  blocks b !! 112 = Some 16 /\ blocks b !! 128 = Some 8 /\
  (112 + 16 <= 128 \/ 128 + 8 <= 112).
Proof.
  intros b.
  destruct (session_blocks_disjoint false 112 scenario_calls b) as [_ Hdis];
    [vm_compute; split; discriminate | vm_compute; intuition discriminate
    | reflexivity |].
  assert (H1 : blocks b !! 112 = Some 16) by reflexivity.
  assert (H2 : blocks b !! 128 = Some 8) by reflexivity.
  split; [exact H1|]. split; [exact H2|].
  apply (Hdis 112 16 128 8 H1 H2). discriminate.
Defined.

(** X7.  At the end of every session within the build-time bounds, the
    8-byte slot of each recorded link lies in the buffer after the
    initial [sizeof(DBFileBuilder)] bytes, and its destination is an
    offset of the buffer (its end included). *)
Theorem session_links_in_buffer DEBUG sz cs b :
  sizeof_DB_FILE <= sz <= INT32_MAX ->
  session_in_bounds DEBUG (DBFileBuilder_new sz) cs ->
  run_calls DEBUG cs (DBFileBuilder_new sz) = (Ok tt, b) ->
  forall l, l ∈ links b ->
    sz <= origin l /\ origin l + 8 <= data_size_of b /\
    0 <= destination l <= data_size_of b.
Proof.
  intros Hsz Hin Hrun l Hl.
  destruct (session_wf _ _ _ _ Hsz Hin Hrun) as [Hwf _].
  pose proof (wf_links _ _ Hwf) as HF. rewrite Forall_forall in HF.
  exact (HF l Hl).
Qed.

Lemma session_links_in_buffer_witness :
  let b := snd (run_calls false scenario_calls (DBFileBuilder_new 112)) in
  112 <= 112 /\ 112 + 8 <= data_size_of b /\ 0 <= 128 <= data_size_of b.
Proof.
  intros b.
  apply (session_links_in_buffer false 112 scenario_calls b
           ltac:(vm_compute; split; discriminate)
           ltac:(vm_compute; intuition discriminate)
           eq_refl (mkLink 112 128)).
  apply list_elem_of_In. left. reflexivity.
Defined.

Lemma run_call_grows DEBUG sz c b b' :
  wf sz b -> call_in_bounds b c ->
  run_call DEBUG c b = (Ok tt, b') ->
  exists extra, drop 28 (data b') = drop 28 (data b) ++ extra.
Proof.
  intros Hwf Hin.
  pose proof (wf_size _ _ Hwf) as Hsize. pose proof (wf_sz _ _ Hwf) as H28.
  change (28 <= sz) in H28. unfold data_size_of in Hsize.
  assert (Happ : forall x, drop 28 (data b ++ x) = drop 28 (data b) ++ x)
    by (intros x; apply drop_app_le; lia).
  destruct c as [buffer len|len|bo o bd d|]; cbn [run_call].
  - destruct Hin as [Hlen Hmax]. unfold bind. rewrite CreateBlock_eq. cbv zeta.
    destruct (DEBUG && linked b); [discriminate|].
    destruct (len =? 0); [intros [= <-]; exists []; now rewrite app_nil_r|].
    destruct (_ >? INT32_MAX); [discriminate|].
    destruct (len >? _); [discriminate|].
    intros [= <-]. eexists. apply Happ.
  - destruct Hin as [Hlen Hmax]. unfold bind. rewrite CreateBlockInPlace_eq. cbv zeta.
    destruct (DEBUG && linked b); [discriminate|].
    destruct (len =? 0); [intros [= <-]; exists []; now rewrite app_nil_r|].
    destruct (_ >? INT32_MAX); [discriminate|].
    intros [= <-]. cbn [data set_blocks set_data].
    rewrite u64_small by (unfold data_size_of in *; lia).
    unfold data_size_of. rewrite resize_grow by lia. eexists. apply Happ.
  - rewrite CreateLink_eq. destruct (DEBUG && linked b); [discriminate|].
    cbv zeta. destruct (_ || _); [discriminate|]. intros [= <-].
    exists []. now rewrite app_nil_r.
  - unfold bind. rewrite Build_eq. destruct (linked b).
    + intros [= <-]. exists []. now rewrite app_nil_r.
    + destruct (_ <? _); [discriminate|]. cbv zeta.
      destruct (_ && _); [discriminate|]. intros [= <-].
      cbn [data set_data]. rewrite drop_finalize_header by lia.
      eexists. apply Happ.
Qed.

Lemma run_calls_grow DEBUG sz cs b b' :
  wf sz b -> wf_linked sz b ->
  session_in_bounds DEBUG b cs ->
  run_calls DEBUG cs b = (Ok tt, b') ->
  exists extra, drop 28 (data b') = drop 28 (data b) ++ extra.
Proof.
  intros Hwf Hlk Hin Hrun.
  apply (run_calls_invariant DEBUG sz
           (fun x => exists extra, drop 28 (data x) = drop 28 (data b) ++ extra))
    with (cs := cs) (b := b); try assumption.
  - intros c b0 b1 Hwf0 _ [e0 He0] Hc E.
    destruct (run_call_grows _ _ _ _ _ Hwf0 Hc E) as [e1 He1].
    exists (e0 ++ e1). now rewrite He1, He0, app_assoc.
  - exists []. now rewrite app_nil_r.
Qed.

(** X8.  Within a session, the bytes of the buffer after the 28 bytes of
    the header are never rewritten: whatever calls follow (blocks,
    links, [Build]), the buffer from offset 28 on is what it was,
    followed by what the calls appended.  In particular the content of
    every block stays as it was created. *)
Theorem session_keeps_payload DEBUG sz cs cs' b b' :
  sizeof_DB_FILE <= sz <= INT32_MAX ->
  session_in_bounds DEBUG (DBFileBuilder_new sz) cs ->
  run_calls DEBUG cs (DBFileBuilder_new sz) = (Ok tt, b) ->
  session_in_bounds DEBUG b cs' ->
  run_calls DEBUG cs' b = (Ok tt, b') ->
  exists extra, drop 28 (data b') = drop 28 (data b) ++ extra.
Proof.
  intros Hsz Hin Hrun Hin' Hrun'.
  destruct (session_wf _ _ _ _ Hsz Hin Hrun) as [Hwf Hlk].
  exact (run_calls_grow _ _ _ _ _ Hwf Hlk Hin' Hrun').
Qed.

Lemma session_keeps_payload_witness :
  let b := snd (run_calls false scenario_calls (DBFileBuilder_new 112)) in
  let b' := snd (run_calls false [Call_Build; Call_CreateBlockInPlace 2] b) in
  exists extra, drop 28 (data b') = drop 28 (data b) ++ extra.
Proof.
  intros b b'.
  apply (session_keeps_payload false 112 scenario_calls
           [Call_Build; Call_CreateBlockInPlace 2] b b');
    try reflexivity; vm_compute; intuition discriminate.
Defined.

(** X9.  An id that [GetBlock] accepts stays accepted through every
    further call of a session: the buffer never gets shorter.  (The
    test is [id > data.size()], so the length of the buffer itself is
    accepted as an id.) *)
Theorem GetBlock_stays_valid DEBUG sz cs cs' b b' id :
  sizeof_DB_FILE <= sz <= INT32_MAX ->
  session_in_bounds DEBUG (DBFileBuilder_new sz) cs ->
  run_calls DEBUG cs (DBFileBuilder_new sz) = (Ok tt, b) ->
  session_in_bounds DEBUG b cs' ->
  run_calls DEBUG cs' b = (Ok tt, b') ->
  GetBlock id b = (Ok id, b) ->
  GetBlock id b' = (Ok id, b') /\ GetBlock (data_size_of b') b' = (Ok (data_size_of b'), b').
Proof.
  intros Hsz Hin Hrun Hin' Hrun' Hget.
  destruct (session_wf _ _ _ _ Hsz Hin Hrun) as [Hwf Hlk].
  pose proof (wf_size _ _ Hwf) as Hsize. pose proof (wf_sz _ _ Hwf) as H28.
  change (28 <= sz) in H28.
  destruct (run_calls_wf _ _ _ _ _ Hwf Hlk Hin' Hrun') as [Hwf' _].
  pose proof (wf_size _ _ Hwf') as Hsize'.
  destruct (run_calls_grow _ _ _ _ _ Hwf Hlk Hin' Hrun') as [extra He].
  assert (Hle : data_size_of b <= data_size_of b').
  { apply (f_equal length) in He. rewrite length_app, !length_drop in He.
    unfold data_size_of in *. lia. }
  revert Hget. unfold GetBlock. run_monad.
  destruct (id >? data_size_of b) eqn:E; [discriminate|]. intros _.
  destruct (id >? data_size_of b') eqn:E'; [lia|].
  split; [reflexivity|].
  now rewrite Z.gtb_ltb, Z.ltb_irrefl.
Qed.

Lemma GetBlock_stays_valid_witness :
  let b := snd (run_calls false scenario_calls (DBFileBuilder_new 112)) in
  let b' := snd (run_calls false [Call_Build] b) in
  GetBlock 128 b' = (Ok 128, b') /\ GetBlock 144 b' = (Ok 144, b').
Proof.
  intros b b'.
  apply (GetBlock_stays_valid false 112 scenario_calls [Call_Build] b b' 128);
    try reflexivity; vm_compute; intuition discriminate.
Defined.

(** ** What [Build] leaves *)

Lemma data_size_of_set_data d b :
  data_size_of (set_data d b) = Z.of_nat (length d).
Proof. reflexivity. Qed.

(** X10.  The first [Build()] of a builder whose buffer holds the header
    and stays within the size cap returns a header with the magic and
    the current version, [links_table_offset] the former length of the
    buffer, [links_count] the number of links reduced to 16 bits,
    [data_size] the former length less [start_offset], and [file_size]
    the new length of the buffer, which is the former one plus 8 bytes
    per link; [start_offset] and [flags] are not written. *)
Theorem Build_header b :
  linked b = false ->
  sizeof_DB_FILE <= data_size_of b ->
  0 <= get_field (data b) f_start_offset <= data_size_of b ->
  data_size_of b + 8 * Z.of_nat (length (links b)) <= INT32_MAX ->
  exists h b',
    Build b = (Ok h, b') /\
    h = Header (data b') /\
    magic h = DB_FILE_MAGIC /\
    version h = DB_FILE_CURR_VERSION /\
    flags h = flags (Header (data b)) /\
    start_offset h = start_offset (Header (data b)) /\
    links_table_offset h = data_size_of b /\
    links_count h = Z.of_nat (length (links b)) mod 2 ^ 16 /\
    data_size h = data_size_of b - start_offset h /\
    file_size h = data_size_of b + 8 * Z.of_nat (length (links b)) /\
    file_size h = data_size_of b'.
Proof.
  intros Hl H28 Hstart Hmax. change (28 <= data_size_of b) in H28.
  rewrite Build_eq, Hl.
  destruct (_ <? sizeof_DB_FILE) eqn:E; [change sizeof_DB_FILE with 28 in E; lia|].
  cbv zeta. unfold sizeof_DB_FILE_LINK.
  rewrite (u64_small (8 * _)) by lia.
  rewrite (u64_small (data_size_of b + _)) by lia.
  destruct (_ >? INT32_MAX) eqn:E1; [lia|]. rewrite andb_false_r.
  eexists _, _. split; [reflexivity|]. cbn [data set_data].
  assert (Hlen : (28 <= length (data b ++ links_bytes (links b)))%nat)
    by (rewrite length_app; unfold data_size_of in *; lia).
  assert (Hnew : Z.of_nat (length (data b ++ links_bytes (links b)))
                 = data_size_of b + 8 * Z.of_nat (length (links b)))
    by (rewrite length_app, length_links_bytes; unfold data_size_of; lia).
  rewrite Header_finalize_header by exact Hlen.
  cbn [magic version flags start_offset links_table_offset links_count
       data_size file_size Header].
  rewrite !get_field_app by (unfold f_end, data_size_of in *; simpl; lia).
  rewrite Hnew, u64_small by lia.
  rewrite data_size_of_set_data, length_finalize_header, Hnew.
  rewrite !u32_small by lia.
  repeat split.
Qed.

Lemma Build_header_witness :
  let b := snd (run_calls false scenario_calls (DBFileBuilder_new 112)) in
  exists h b',
    Build b = (Ok h, b') /\
    start_offset h = 112 /\ data_size h = 24 /\
    links_table_offset h = 136 /\ links_count h = 1 /\ file_size h = 144.
Proof.
  intros b.
  destruct (Build_header b) as (h & b' & HB & _ & _ & _ & _ & Hs & Ho & Hc & Hd & Hf & _);
    [reflexivity | vm_compute; discriminate | vm_compute; intuition discriminate
    | vm_compute; discriminate |].
  exists h, b'. split; [exact HB|].
  split; [rewrite Hs; reflexivity|].
  split; [rewrite Hd, Hs; reflexivity|].
  split; [rewrite Ho; reflexivity|].
  split; [rewrite Hc; reflexivity|rewrite Hf; reflexivity].
Defined.

(** X11.  The same [Build()] leaves every byte of the buffer after the
    header as it was and appends the link table, one 8-byte record per
    link in the order of creation: the record [k] holds the origin of
    the link [k] in its first 4 bytes and its destination in the last
    4.  The recorded sizes and the links are unchanged and the builder
    is marked as linked. *)
Theorem Build_appends_table b :
  linked b = false ->
  sizeof_DB_FILE <= data_size_of b ->
  data_size_of b + 8 * Z.of_nat (length (links b)) <= INT32_MAX ->
  exists h b',
    Build b = (Ok h, b') /\
    drop 28 (data b') = drop 28 (data b) ++ links_bytes (links b) /\
    linked b' = true /\ blocks b' = blocks b /\ links b' = links b /\
    forall k l,
      links b !! k = Some l ->
      peek (data b') (Z.to_nat (data_size_of b) + 8 * k) 4 = u32 (origin l) /\
      peek (data b') (Z.to_nat (data_size_of b) + 8 * k + 4) 4 = u32 (destination l).
Proof.
  intros Hl H28 Hmax. change (28 <= data_size_of b) in H28.
  rewrite Build_eq, Hl.
  destruct (_ <? sizeof_DB_FILE) eqn:E; [change sizeof_DB_FILE with 28 in E; lia|].
  cbv zeta. unfold sizeof_DB_FILE_LINK.
  rewrite (u64_small (8 * _)) by lia.
  rewrite (u64_small (data_size_of b + _)) by lia.
  destruct (_ >? INT32_MAX) eqn:E1; [lia|]. rewrite andb_false_r.
  eexists _, _. split; [reflexivity|].
  cbn [data linked blocks links set_data set_linked].
  split; [|repeat split].
  - rewrite drop_finalize_header by lia.
    apply drop_app_le. unfold data_size_of in *. lia.
  - apply (peek_record _ _ (links b)); [|assumption].
    rewrite drop_finalize_header by (unfold data_size_of in *; lia).
    unfold data_size_of. rewrite Nat2Z.id. apply drop_app_length.
  - apply (peek_record _ _ (links b)); [|assumption].
    rewrite drop_finalize_header by (unfold data_size_of in *; lia).
    unfold data_size_of. rewrite Nat2Z.id. apply drop_app_length.
Qed.

Lemma Build_appends_table_witness :
  let b := snd (run_calls false scenario_calls (DBFileBuilder_new 112)) in
  exists h b',
    Build b = (Ok h, b') /\
    peek (data b') 136 4 = 112 /\ peek (data b') 140 4 = 128.
Proof.
  intros b.
  destruct (Build_appends_table b) as (h & b' & HB & _ & _ & _ & _ & Hrec);
    [reflexivity | vm_compute; discriminate | vm_compute; discriminate |].
  exists h, b'. split; [exact HB|].
  exact (Hrec 0%nat (mkLink 112 128) eq_refl).
Defined.

(** X12.  [Build()] sets [linked] before it tests the size of the link
    table.  When it throws, the error is "file too big", the buffer and
    the links are untouched and no header field is written, but the
    builder is left marked as linked: the next [Build()] returns the
    header as it is, without a magic, instead of trying again. *)
Theorem Build_failure_marks_linked b e b' :
  Build b = (Throw e, b') ->
  e = FileTooBig /\
  data b' = data b /\ links b' = links b /\ blocks b' = blocks b /\
  linked b = false /\ linked b' = true /\
  Build b' = (Ok (Header (data b)), b').
Proof.
  rewrite Build_eq. destruct (linked b) eqn:Hl; [discriminate|].
  destruct (_ <? sizeof_DB_FILE); [discriminate|]. cbv zeta.
  destruct (_ && _); [|discriminate].
  intros [= <- <-]. repeat split.
Qed.

Lemma Build_failure_marks_linked_witness :
  let b := mkBuilder false (replicate (Z.to_nat INT32_MAX) Byte.x00) ∅ [mkLink 0 0] in
  Build b = (Throw FileTooBig, set_linked true b) /\
  Build (set_linked true b) = (Ok (Header (data b)), set_linked true b).
Proof.
  intros b.
  assert (Hsize : data_size_of b = INT32_MAX).
  { unfold data_size_of, b. cbn [data]. rewrite length_replicate.
    apply Z2Nat.id. discriminate. }
  assert (HB : Build b = (Throw FileTooBig, set_linked true b)).
  { apply Build_over_cap; rewrite ?Hsize; try reflexivity; discriminate. }
  split; [exact HB|].
  exact (proj2 (proj2 (proj2 (proj2 (proj2 (proj2
           (Build_failure_marks_linked b FileTooBig (set_linked true b) HB))))))).
Defined.

(** * Further properties of the reader *)

(** ** The known length *)

(** X13.  The known length only gates the two length tests: for a
    buffer that holds a header, a nonzero length that passes the first
    test and is not below [file_size] gives exactly the result of the
    reader without a known length, whatever the buffer holds. *)
Theorem known_length_only_gates base m len :
  sizeof_DB_FILE <= Z.of_nat (length m) ->
  file_too_small len = false ->
  file_size (Header m) <= len ->
  ValidateAndLink base len m = ValidateAndLink base 0 m.
Proof.
  intros H28 Hft Hfs. change (28 <= Z.of_nat (length m)) in H28.
  cbn [Header file_size] in Hfs.
  unfold ValidateAndLink. rewrite Hft.
  change (file_too_small 0) with false.
  cbv [bind throw_if ret].
  rewrite (load_field_ok m f_magic) by (unfold f_end; simpl; lia).
  destruct (negb _); [reflexivity|].
  rewrite (load_field_ok m f_version) by (unfold f_end; simpl; lia).
  destruct (_ <? DB_FILE_MIN_VERSION); [reflexivity|].
  change (0 =? 0) with true. cbv beta iota.
  destruct (len =? 0); [reflexivity|].
  rewrite (load_field_ok m f_file_size) by (unfold f_end; simpl; lia).
  replace (get_field m f_file_size >? len) with false
    by (symmetry; rewrite Z.gtb_ltb; apply Z.ltb_ge; lia).
  reflexivity.
Qed.

Lemma known_length_only_gates_witness :
  let c := overhanging_link_container in
  ValidateAndLink 4096 40 (c ++ replicate 8 Byte.xff)
  = ValidateAndLink 4096 0 (c ++ replicate 8 Byte.xff).
Proof.
  intros c.
  apply known_length_only_gates; vm_compute; (reflexivity || discriminate).
Defined.

(** X14.  A buffer that passes the tests on the length, the magic and
    the version and whose [start_offset] is above its [file_size] is
    refused with "start offset after file end" and keeps every byte. *)
Theorem start_offset_after_end base m len :
  sizeof_DB_FILE <= Z.of_nat (length m) ->
  file_too_small len = false ->
  magic (Header m) = DB_FILE_MAGIC ->
  DB_FILE_MIN_VERSION <= version (Header m) ->
  len = 0 \/ file_size (Header m) <= len ->
  start_offset (Header m) > file_size (Header m) ->
  ValidateAndLink base len m = (Throw StartOffsetAfterEnd, m).
Proof.
  intros H28 Hft Hm Hv Hlen Hso. change (28 <= Z.of_nat (length m)) in H28.
  cbn [Header magic version file_size start_offset] in *.
  unfold ValidateAndLink. rewrite Hft. cbv [bind throw_if ret].
  rewrite (load_field_ok m f_magic), Hm, Z.eqb_refl by (unfold f_end; simpl; lia).
  cbn [negb]. cbv beta iota.
  rewrite (load_field_ok m f_version) by (unfold f_end; simpl; lia).
  replace (get_field m f_version <? DB_FILE_MIN_VERSION) with false
    by (symmetry; apply Z.ltb_ge; lia).
  cbv beta iota.
  destruct (len =? 0) eqn:E0; cbv beta iota.
  2: (apply Z.eqb_neq in E0;
      rewrite (load_field_ok m f_file_size) by (unfold f_end; simpl; lia);
      replace (get_field m f_file_size >? len) with false
        by (symmetry; rewrite Z.gtb_ltb; apply Z.ltb_ge; lia);
      cbv beta iota).
  all: rewrite (load_field_ok m f_start_offset) by (unfold f_end; simpl; lia).
  all: rewrite (load_field_ok m f_file_size) by (unfold f_end; simpl; lia).
  all: replace (get_field m f_start_offset >? get_field m f_file_size) with true
         by (symmetry; apply Z.gtb_lt; lia).
  all: reflexivity.
Qed.

Lemma start_offset_after_end_witness :
  let m := set_field header_only_container f_start_offset 29 in
  DBFileReader_buffer 4096 m 0 = (Throw StartOffsetAfterEnd, m).
Proof.
  intros m.
  apply (start_offset_after_end 4096 m 0);
    vm_compute; (reflexivity || discriminate || (left; reflexivity)).
Defined.

(** X15.  The reader never accepts a buffer without walking its links:
    the minimum version is the version that introduced the links, so a
    buffer whose version is below [LINKING] is refused (or its header
    cannot even be read), and the branch that skips the link loop is
    never the one that returns. *)
Theorem accepted_buffer_has_linking_version base m len :
  fst (ValidateAndLink base len m) = Ok tt ->
  LINKING <= version (Header m).
Proof.
  cbn [Header version]. unfold ValidateAndLink. cbv [bind throw_if ret].
  destruct (file_too_small len); [discriminate|].
  unfold load_field at 1. rewrite load_eq.
  destruct (in_bounds m _ _); [|discriminate].
  destruct (negb _); [discriminate|].
  unfold load_field at 1. rewrite load_eq.
  destruct (in_bounds m _ _); [|discriminate].
  change (peek m (Z.to_nat (Z.of_nat (f_off f_version))) (f_size f_version))
    with (get_field m f_version).
  destruct (get_field m f_version <? DB_FILE_MIN_VERSION) eqn:E; [discriminate|].
  intros _. apply Z.ltb_ge in E. exact E.
Qed.

Lemma accepted_buffer_has_linking_version_witness :
  LINKING <= version (Header header_only_container).
Proof.
  apply (accepted_buffer_has_linking_version 4096 header_only_container 0).
  vm_compute. reflexivity.
Defined.

(** ** The loop on any loadable memory *)

Lemma frame_store base sz lo m m' l :
  0 <= sz <= origin l -> origin l + 8 <= lo ->
  frame sz lo m m' -> frame sz lo m (resolve_link base m' l).
Proof.
  intros Ho Hhi (Hlen & Htake & Hdrop). unfold resolve_link.
  split; [|split].
  - now rewrite length_poke.
  - rewrite take_poke_above by lia. exact Htake.
  - rewrite drop_poke_below; [exact Hdrop|]. rewrite length_le_split.
    unfold sizeof_pointer. lia.
Qed.

Section Loadable.
Variables (base lo : Z) (ls : list DB_FILE_LINK) (m : list byte).
Hypothesis Hld : loadable lo ls m.

Local Abbreviation fsize := (get_field m f_file_size).

Lemma loadable_bounds :
  28 <= lo < 2 ^ 32 /\ 0 <= fsize < 2 ^ 32 /\ Z.of_nat (length ls) < 2 ^ 16.
Proof.
  pose proof (ld_table _ _ _ Hld) as H28. change (28 <= lo) in H28.
  pose proof (get_field_bound m f_links_table_offset) as Hb.
  rewrite (ld_offset _ _ _ Hld) in Hb.
  pose proof (get_field_bound m f_links_count) as Hc.
  rewrite (ld_count _ _ _ Hld) in Hc.
  pose proof (get_field_bound m f_file_size) as Hs.
  repeat split; try lia; [apply Hb|apply Hs|apply Hc].
Qed.

Lemma loadable_count m' :
  frame 28 lo m m' ->
  load_field f_links_count m' = (Ok (Z.of_nat (length ls)), m').
Proof.
  intros Hf. pose proof loadable_bounds as (Hlo & _).
  pose proof (ld_length _ _ _ Hld) as Hlen.
  rewrite load_field_ok.
  - rewrite (get_field_frame 28 lo m m') by
      (assumption || reflexivity || (unfold f_end; simpl; lia)).
    now rewrite (ld_count _ _ _ Hld).
  - destruct Hf as (Hl & _). rewrite Hl. unfold f_end. simpl. lia.
Qed.

Lemma loadable_size m' :
  frame 28 lo m m' -> load_field f_file_size m' = (Ok fsize, m').
Proof.
  intros Hf. pose proof loadable_bounds as (Hlo & _).
  pose proof (ld_length _ _ _ Hld) as Hlen.
  rewrite load_field_ok.
  - now rewrite (get_field_frame 28 lo m m') by
      (assumption || reflexivity || (unfold f_end; simpl; lia)).
  - destruct Hf as (Hl & _). rewrite Hl. unfold f_end. simpl. lia.
Qed.

(** The two loads of the record [k]. *)
Lemma loadable_record m' k l :
  frame 28 lo m m' -> ls !! k = Some l ->
  load (lo + sizeof_DB_FILE_LINK * Z.of_nat k) 4 m' = (Ok (u32 (origin l)), m') /\
  load (lo + sizeof_DB_FILE_LINK * Z.of_nat k + 4) 4 m'
  = (Ok (u32 (destination l)), m').
Proof.
  intros Hf Hk. pose proof loadable_bounds as (Hlo & _).
  pose proof (ld_length _ _ _ Hld) as Hlen.
  pose proof Hf as (Hlen' & _ & _).
  assert (Hlt : (k < length ls)%nat) by (eapply lookup_lt_Some; exact Hk).
  destruct (peek_record m (Z.to_nat lo) ls k l) as [Hpo Hpd];
    [exact (ld_records _ _ _ Hld)|exact Hk|].
  unfold sizeof_DB_FILE_LINK. split.
  - rewrite load_ok by lia.
    rewrite (peek_frame_high 28 lo m m') by (assumption || lia).
    replace (Z.to_nat (lo + 8 * Z.of_nat k)) with (Z.to_nat lo + 8 * k)%nat by lia.
    now rewrite Hpo.
  - rewrite load_ok by lia.
    rewrite (peek_frame_high 28 lo m m') by (assumption || lia).
    replace (Z.to_nat (lo + 8 * Z.of_nat k + 4))
      with (Z.to_nat lo + 8 * k + 4)%nat by lia.
    now rewrite Hpd.
Qed.

(** The loop resolves the records [good] that pass the tests, then goes
    on as it does from the record that follows them. *)
Lemma link_loop_good r :
  forall good pre tail fuel m',
    ls = pre ++ good ++ tail ->
    Forall (record_ok lo fsize) good ->
    frame 28 lo m m' ->
    (length good + length tail <= fuel)%nat ->
    (forall fuel' m'',
        (length tail <= fuel')%nat -> frame 28 lo m m'' ->
        link_loop base fuel' lo (Z.of_nat (length (pre ++ good))) m'' = (r, m'')) ->
    link_loop base fuel lo (Z.of_nat (length pre)) m'
    = (r, resolve_links base good m').
Proof.
  pose proof loadable_bounds as (Hlo & Hsize & Hn).
  change (2 ^ 16) with 65536 in Hn. change (2 ^ 32) with 4294967296 in *.
  induction good as [|l good IH]; intros pre tail fuel m' Hls Hok Hf Hfuel Hrest.
  - rewrite app_nil_r in Hrest. apply Hrest; [cbn [length] in Hfuel; lia|exact Hf].
  - apply Forall_cons in Hok as [(Ho & Hoe & Hos & Hd) Hok].
    change (28 <= origin l) in Ho.
    assert (Hk : ls !! length pre = Some l)
      by (rewrite Hls; apply list_lookup_middle; reflexivity).
    assert (Hlt : Z.of_nat (length pre) < Z.of_nat (length ls)).
    { rewrite Hls, !length_app. cbn [length]. lia. }
    destruct (loadable_record m' _ _ Hf Hk) as [Hlo' Hld'].
    rewrite link_loop_eq. cbv [bind throw_if ret].
    rewrite (loadable_count m' Hf).
    replace (Z.of_nat (length pre) <? Z.of_nat (length ls)) with true
      by (symmetry; now apply Z.ltb_lt).
    destruct fuel as [|fuel]; [cbn [length] in Hfuel; lia|].
    rewrite Hlo', (loadable_size m' Hf), (u32_id (origin l)) by lia.
    replace (origin l >? fsize) with false
      by (symmetry; rewrite Z.gtb_ltb; apply Z.ltb_ge; lia).
    rewrite Hld', (loadable_size m' Hf), (u32_id (destination l)) by lia.
    replace (destination l >? fsize) with false
      by (symmetry; rewrite Z.gtb_ltb; apply Z.ltb_ge; lia).
    pose proof Hf as (Hlen' & _ & _).
    pose proof (ld_length _ _ _ Hld) as Hlen.
    rewrite store_ok by (unfold sizeof_pointer; lia).
    fold (resolve_link base m' l).
    replace (u64 (Z.of_nat (length pre) + 1))
      with (Z.of_nat (length (pre ++ [l]))).
    2:{ rewrite length_app. cbn [length]. unfold u64, wrap.
        rewrite Z.mod_small; [lia|]. change (2 ^ 64) with 18446744073709551616. lia. }
    rewrite resolve_links_cons. apply (IH (pre ++ [l]) tail).
    + rewrite Hls, <- app_assoc. reflexivity.
    + exact Hok.
    + apply frame_store; [lia|lia|exact Hf].
    + cbn [length] in Hfuel. lia.
    + intros fuel' m'' Hfuel' Hf''. rewrite <- app_assoc. cbn [app].
      now apply Hrest.
Qed.

(** Past the last record the loop ends. *)
Lemma link_loop_end fuel m' :
  frame 28 lo m m' ->
  link_loop base fuel lo (Z.of_nat (length ls)) m' = (Ok tt, m').
Proof.
  intros Hf. rewrite link_loop_eq. cbv [bind throw_if ret].
  rewrite (loadable_count m' Hf). now rewrite Z.ltb_irrefl.
Qed.

(** At a record that fails a test the loop throws and stores nothing. *)
Lemma link_loop_bad pre bad rest fuel m' :
  ls = pre ++ bad :: rest ->
  record_bad fsize bad ->
  frame 28 lo m m' ->
  (length (bad :: rest) <= fuel)%nat ->
  link_loop base fuel lo (Z.of_nat (length pre)) m' = (Throw LinkAfterEnd, m').
Proof.
  intros Hls (Ho & Hd & Hbad) Hf Hfuel.
  change (2 ^ 32) with 4294967296 in *.
  assert (Hk : ls !! length pre = Some bad)
    by (rewrite Hls; apply list_lookup_middle; reflexivity).
  assert (Hlt : Z.of_nat (length pre) < Z.of_nat (length ls)).
  { rewrite Hls, !length_app. cbn [length]. lia. }
  destruct (loadable_record m' _ _ Hf Hk) as [Hlo' Hld'].
  rewrite link_loop_eq. cbv [bind throw_if ret].
  rewrite (loadable_count m' Hf).
  replace (Z.of_nat (length pre) <? Z.of_nat (length ls)) with true
    by (symmetry; now apply Z.ltb_lt).
  destruct fuel as [|fuel]; [cbn [length] in Hfuel; lia|].
  rewrite Hlo', (loadable_size m' Hf), (u32_id (origin bad)) by lia.
  destruct (origin bad >? fsize) eqn:E; [reflexivity|].
  rewrite Hld', (loadable_size m' Hf), (u32_id (destination bad)) by lia.
  destruct (destination bad >? fsize) eqn:E'; [reflexivity|lia].
Qed.

(** The tests before the loop pass and the loop starts at record 0. *)
Lemma loadable_prefix len :
  file_too_small len = false ->
  len = 0 \/ fsize <= len ->
  ValidateAndLink base len m = link_loop base max_links lo 0 m.
Proof.
  intros Hft Hlen. pose proof loadable_bounds as (Hlo & _).
  pose proof (ld_length _ _ _ Hld) as Hl.
  pose proof (ld_version _ _ _ Hld) as Hv.
  assert (Hfield : forall f, (f_end f <= 28)%nat ->
            load_field f m = (Ok (get_field m f), m))
    by (intros f Hf; apply load_field_ok; lia).
  unfold ValidateAndLink. rewrite Hft. cbv [bind throw_if ret].
  rewrite (Hfield f_magic), (ld_magic _ _ _ Hld) by (unfold f_end; simpl; lia).
  rewrite Z.eqb_refl. cbn [negb]. cbv beta iota.
  rewrite (Hfield f_version) by (unfold f_end; simpl; lia).
  replace (get_field m f_version <? DB_FILE_MIN_VERSION) with false
    by (symmetry; apply Z.ltb_ge; lia).
  destruct (len =? 0) eqn:E0; cbv beta iota.
  2: (apply Z.eqb_neq in E0;
      rewrite (Hfield f_file_size) by (unfold f_end; simpl; lia);
      replace (get_field m f_file_size >? len) with false
        by (symmetry; rewrite Z.gtb_ltb; apply Z.ltb_ge; lia);
      cbv beta iota).
  all: rewrite (Hfield f_start_offset) by (unfold f_end; simpl; lia).
  all: rewrite (Hfield f_file_size) by (unfold f_end; simpl; lia).
  all: replace (get_field m f_start_offset >? get_field m f_file_size) with false
         by (symmetry; rewrite Z.gtb_ltb; apply Z.ltb_ge;
             apply (ld_start _ _ _ Hld)).
  all: cbv beta iota.
  all: rewrite (Hfield f_version) by (unfold f_end; simpl; lia).
  all: replace (get_field m f_version >=? LINKING) with true
         by (symmetry; apply Z.geb_le; exact Hv).
  all: cbv beta iota.
  all: rewrite (Hfield f_links_table_offset), (ld_offset _ _ _ Hld)
         by (unfold f_end; simpl; lia).
  all: reflexivity.
Qed.
End Loadable.

(** ** Accepting and refusing link records *)

(** X16.  A memory whose header passes the tests and whose link table
    ends the memory, every record having its origin and destination
    within [file_size] and its slot after the header and before the
    table, is accepted, with or without a known length that passes the
    length tests; the loaded memory is the one the stores of the records
    leave, in the order of the table. *)
Theorem load_accepts base lo ls m len :
  loadable lo ls m ->
  Forall (record_ok lo (file_size (Header m))) ls ->
  file_too_small len = false ->
  len = 0 \/ file_size (Header m) <= len ->
  ValidateAndLink base len m = (Ok tt, resolve_links base ls m).
Proof.
  intros Hld Hok Hft Hlen. cbn [Header file_size] in *.
  pose proof (loadable_bounds lo ls m Hld) as (_ & _ & Hn).
  pose proof Z_of_max_links. change (2 ^ 16) with 65536 in Hn.
  rewrite (loadable_prefix base lo ls m Hld len Hft Hlen).
  apply (link_loop_good base lo ls m Hld (Ok tt) ls [] []);
    [now rewrite app_nil_r|exact Hok|apply frame_refl|cbn [length]; lia|].
  intros fuel' m'' _ Hf. cbn [app]. now apply (link_loop_end base lo ls m Hld).
Qed.

(** X17.  When the records [good] pass the tests and the next record has
    its origin or its destination above [file_size], the reader throws
    "link after end file" after it has resolved the records [good]:
    their slots hold addresses and are not restored. *)
Theorem load_stops_at_bad_record base lo good bad rest m len :
  loadable lo (good ++ bad :: rest) m ->
  Forall (record_ok lo (file_size (Header m))) good ->
  record_bad (file_size (Header m)) bad ->
  file_too_small len = false ->
  len = 0 \/ file_size (Header m) <= len ->
  ValidateAndLink base len m = (Throw LinkAfterEnd, resolve_links base good m).
Proof.
  intros Hld Hok Hbad Hft Hlen. cbn [Header file_size] in *.
  pose proof (loadable_bounds _ _ _ Hld) as (_ & _ & Hn).
  pose proof Z_of_max_links. change (2 ^ 16) with 65536 in Hn.
  rewrite (loadable_prefix base lo _ m Hld len Hft Hlen).
  apply (link_loop_good base lo _ m Hld (Throw LinkAfterEnd) good [] (bad :: rest));
    [reflexivity|exact Hok|apply frame_refl| |].
  - rewrite length_app in Hn. lia.
  - intros fuel' m'' Hfuel Hf. cbn [app].
    now apply (link_loop_bad base lo _ m Hld good bad rest).
Qed.

Lemma stray_session_loadable :
  let r := (run_calls false
              [ Call_CreateBlock (replicate 16 Byte.x00) 16;
                Call_CreateLink 112 0 112 0;
                Call_CreateLink 112 8 2147483647 0 ] ;;; WriteToFile)
             (DBFileBuilder_new 112) in
  fst r = Ok (file_of r) /\
  loadable 128 ([mkLink 112 112] ++ mkLink 120 2147483647 :: []) (file_of r).
Proof.
  split; [reflexivity|]. constructor; vm_compute; (reflexivity || discriminate).
Qed.

Lemma load_stops_at_bad_record_witness :
  let r := (run_calls false
              [ Call_CreateBlock (replicate 16 Byte.x00) 16;
                Call_CreateLink 112 0 112 0;
                Call_CreateLink 112 8 2147483647 0 ] ;;; WriteToFile)
             (DBFileBuilder_new 112) in
  exists m',
    DBFileReader_path 4096 (file_of r) = (Throw LinkAfterEnd, m') /\
    peek m' 112 8 = 4096 + 112 /\ peek (file_of r) 112 8 = 0.
Proof.
  intros r.
  exists (resolve_links 4096 [mkLink 112 112] (file_of r)).
  split; [|split; vm_compute; reflexivity].
  apply (load_stops_at_bad_record 4096 128 [mkLink 112 112]
           (mkLink 120 2147483647) [] (file_of r)).
  - exact (proj2 stray_session_loadable).
  - repeat constructor; vm_compute; discriminate.
  - vm_compute. intuition discriminate.
  - reflexivity.
  - right. vm_compute. discriminate.
Defined.

Lemma load_accepts_witness :
  let c := finalize_header
             (set_field (replicate 28 Byte.x00) f_start_offset 28
              ++ replicate 12 Byte.x00 ++ link_bytes (mkLink 30 40))
             40 1 12 in
  DBFileReader_buffer 4096 c 0 = (Ok tt, resolve_links 4096 [mkLink 30 40] c).
Proof.
  intros c.
  apply (load_accepts 4096 40 [mkLink 30 40] c 0).
  - constructor; vm_compute; (reflexivity || discriminate).
  - repeat constructor; vm_compute; discriminate.
  - reflexivity.
  - left. reflexivity.
Defined.

(** ** Loading the file of a session *)

Lemma session_file_container DEBUG sz cs file b :
  sizeof_DB_FILE <= sz <= INT32_MAX ->
  session_in_bounds DEBUG (DBFileBuilder_new sz) cs ->
  (run_calls DEBUG cs ;;; WriteToFile) (DBFileBuilder_new sz) = (Ok file, b) ->
  Z.of_nat (length (links b)) < 2 ^ 16 ->
  file = data b /\ linked b = true /\
  exists lo, container sz lo (links b) file.
Proof.
  intros Hsz Hin Hrun Hn. unfold bind in Hrun.
  destruct (run_calls DEBUG cs (DBFileBuilder_new sz)) as [[[]|e|] b1] eqn:E;
    [|discriminate..].
  destruct (session_wf _ _ _ _ Hsz Hin E) as [Hwf1 Hlk1].
  assert (Hb : links b = links b1 /\ linked b = true).
  { revert Hrun. unfold WriteToFile, bind, get.
    destruct (Build b1) as [[h|e|] b2] eqn:EB; [|discriminate..].
    destruct (_ >? _); [discriminate|]. intros [= _ <-].
    split; [|exact (proj1 (Build_ok_linked _ _ _ EB))].
    rewrite Build_eq in EB. destruct (linked b1).
    - now injection EB as _ <-.
    - destruct (_ <? _); [discriminate|]. cbv zeta in EB.
      destruct (_ && _); [discriminate|]. now injection EB as _ <-. }
  destruct Hb as [Hb Hl]. rewrite Hb in Hn.
  destruct (WriteToFile_container _ _ _ _ Hwf1 Hlk1 Hn Hrun) as (_ & Hfile & lo & Hc).
  split; [exact Hfile|]. split; [exact Hl|]. exists lo. exact Hc.
Qed.

Lemma frame_resolve_links base sz lo m ls :
  0 <= sz -> Forall (link_ok sz lo) ls ->
  forall m', frame sz lo m m' -> frame sz lo m (resolve_links base ls m').
Proof.
  intros Hsz. induction ls as [|l ls IH]; intros Hok m' Hf; [exact Hf|].
  apply Forall_cons in Hok as [Hl Hok]. rewrite resolve_links_cons.
  apply IH; [exact Hok|]. now apply frame_resolve_link.
Qed.

Lemma container_frame sz lo ls m m' :
  container sz lo ls m -> frame sz lo m m' -> container sz lo ls m'.
Proof.
  intros [Hsz Hlen Hmax Hmagic Hver Hcnt Hoff Hst Hfs Hrec Hls] Hf.
  pose proof Hf as (Hl & _ & Hd).
  assert (Hfield : forall f, (f_end f <= 28)%nat -> get_field m' f = get_field m f).
  { intros f Hend. apply (get_field_frame sz lo); [exact Hf|apply Hsz|exact Hend]. }
  constructor; rewrite ?Hl, ?Hd, ?Hfield by (unfold f_end; simpl; lia);
    assumption.
Qed.

(** Two memories of one length that agree outside the slots of the
    records come out of the stores the same. *)
Lemma resolve_links_agree base ls :
  forall m1 m2,
    length m1 = length m2 ->
    Forall (fun l => 0 <= origin l /\ origin l + 8 <= Z.of_nat (length m1)) ls ->
    (forall i : nat, (forall l, l ∈ ls -> ~ in_slot l (Z.of_nat i)) ->
                     m1 !! i = m2 !! i) ->
    resolve_links base ls m1 = resolve_links base ls m2.
Proof.
  induction ls as [|l ls IH]; intros m1 m2 Hlen Hok Hout.
  - apply list_eq. intros i. apply Hout. intros l Hl. inversion Hl.
  - apply Forall_cons in Hok as [[Ho Hoe] Hok]. rewrite !resolve_links_cons.
    apply IH.
    + unfold resolve_link. now rewrite !length_poke.
    + unfold resolve_link. rewrite length_poke. exact Hok.
    + intros i Hi. unfold resolve_link.
      destruct (decide (in_slot l (Z.of_nat i))) as [Hin|Hin].
      * unfold in_slot in Hin.
        rewrite !lookup_poke_in;
          rewrite ?length_le_split; unfold sizeof_pointer; try lia.
        reflexivity.
      * rewrite !lookup_poke_out
          by (rewrite length_le_split; unfold in_slot, sizeof_pointer in *; lia).
        apply Hout. intros l' Hl'. apply elem_of_cons in Hl' as [->|Hl'];
          [exact Hin|now apply Hi].
Qed.

(** X18.  The file of a session can be loaded again: the reader reads
    the offsets from the link table, which its stores never touch, so
    loading the loaded buffer once more, at the same or at another base
    address, succeeds and gives the buffer that loading the file at
    that address gives. *)
Theorem reload_relocates DEBUG sz cs file b base base' :
  sizeof_DB_FILE <= sz <= INT32_MAX ->
  session_in_bounds DEBUG (DBFileBuilder_new sz) cs ->
  (run_calls DEBUG cs ;;; WriteToFile) (DBFileBuilder_new sz) = (Ok file, b) ->
  Z.of_nat (length (links b)) < 2 ^ 16 ->
  file_too_small (Z.of_nat (length file)) = false ->
  exists m1 m2,
    DBFileReader_path base file = (Ok tt, m1) /\
    DBFileReader_path base' file = (Ok tt, m2) /\
    DBFileReader_path base' m1 = (Ok tt, m2).
Proof.
  intros Hsz Hin Hrun Hn Hft.
  destruct (session_file_container _ _ _ _ _ Hsz Hin Hrun Hn) as (_ & _ & lo & Hc).
  pose proof (c_sz _ _ _ _ Hc) as [H28 Hlo]. change (28 <= sz) in H28.
  pose proof (c_length _ _ _ _ Hc) as Hlen.
  assert (Hf : frame sz lo file (resolve_links base (links b) file)).
  { apply frame_resolve_links; [lia|exact (c_links _ _ _ _ Hc)|apply frame_refl]. }
  pose proof (container_frame _ _ _ _ _ Hc Hf) as Hc1.
  exists (resolve_links base (links b) file), (resolve_links base' (links b) file).
  unfold DBFileReader_path. rewrite length_resolve_links.
  split; [|split].
  - apply (ValidateAndLink_container base sz lo); [assumption..|right; lia].
  - apply (ValidateAndLink_container base' sz lo); [assumption..|right; lia].
  - rewrite (ValidateAndLink_container base' sz lo (links b)) ;
      [|assumption..|right; rewrite length_resolve_links; lia].
    f_equal. apply resolve_links_agree.
    + apply length_resolve_links.
    + rewrite length_resolve_links.
      eapply Forall_impl; [exact (c_links _ _ _ _ Hc)|].
      intros l (Ho & Hoe & _). lia.
    + intros i Hi. apply resolve_links_outside; [|exact Hi].
      eapply Forall_impl; [exact (c_links _ _ _ _ Hc)|].
      intros l (Ho & _). lia.
Qed.

Lemma reload_relocates_witness :
  let r := (run_calls false scenario_calls ;;; WriteToFile) (DBFileBuilder_new 112) in
  exists m1 m2,
    DBFileReader_path 4096 (file_of r) = (Ok tt, m1) /\
    DBFileReader_path 8192 (file_of r) = (Ok tt, m2) /\
    DBFileReader_path 8192 m1 = (Ok tt, m2).
Proof.
  intros r.
  apply (reload_relocates false 112 scenario_calls (file_of r) (snd r) 4096 8192).
  - vm_compute. split; discriminate.
  - vm_compute. intuition discriminate.
  - reflexivity.
  - vm_compute. reflexivity.
  - vm_compute. reflexivity.
Defined.

(** X19.  Loading the file of a session changes neither the header nor
    the link table: the loaded buffer shows the header fields that
    [Build] wrote, [GetStart] is the initial [sizeof(DBFileBuilder)],
    the id of the first block, and the records of the table are as
    written. *)
Theorem loading_keeps_header_and_table DEBUG sz cs file b base :
  sizeof_DB_FILE <= sz <= INT32_MAX ->
  session_in_bounds DEBUG (DBFileBuilder_new sz) cs ->
  (run_calls DEBUG cs ;;; WriteToFile) (DBFileBuilder_new sz) = (Ok file, b) ->
  Z.of_nat (length (links b)) < 2 ^ 16 ->
  file_too_small (Z.of_nat (length file)) = false ->
  exists m',
    DBFileReader_path base file = (Ok tt, m') /\
    Header m' = Header file /\
    GetStart m' = sz /\
    drop (Z.to_nat (links_table_offset (Header file))) m' = links_bytes (links b).
Proof.
  intros Hsz Hin Hrun Hn Hft.
  destruct (session_file_container _ _ _ _ _ Hsz Hin Hrun Hn) as (_ & _ & lo & Hc).
  pose proof (c_sz _ _ _ _ Hc) as [H28 Hlo].
  pose proof (c_length _ _ _ _ Hc) as Hlen.
  assert (Hf : frame sz lo file (resolve_links base (links b) file)).
  { apply frame_resolve_links; [change (28 <= sz) in H28; lia
                               |exact (c_links _ _ _ _ Hc)|apply frame_refl]. }
  pose proof (container_frame _ _ _ _ _ Hc Hf) as Hc1.
  assert (Hfield : forall f, (f_end f <= 28)%nat ->
            get_field (resolve_links base (links b) file) f = get_field file f).
  { intros f Hend. apply (get_field_frame sz lo); assumption. }
  exists (resolve_links base (links b) file).
  split; [|split; [|split]].
  - unfold DBFileReader_path.
    apply (ValidateAndLink_container base sz lo); [assumption..|right; lia].
  - unfold Header. rewrite !Hfield by (unfold f_end; simpl; lia). reflexivity.
  - unfold GetStart. cbn [Header start_offset]. exact (c_start _ _ _ _ Hc1).
  - cbn [Header links_table_offset]. rewrite (c_offset _ _ _ _ Hc).
    exact (c_records _ _ _ _ Hc1).
Qed.

Lemma loading_keeps_header_and_table_witness :
  let r := (run_calls false scenario_calls ;;; WriteToFile) (DBFileBuilder_new 112) in
  exists m',
    DBFileReader_path 4096 (file_of r) = (Ok tt, m') /\
    Header m' = Header (file_of r) /\ GetStart m' = 112.
Proof.
  intros r.
  destruct (loading_keeps_header_and_table false 112 scenario_calls (file_of r)
              (snd r) 4096) as (m' & H1 & H2 & H3 & _).
  - vm_compute. split; discriminate.
  - vm_compute. intuition discriminate.
  - reflexivity.
  - vm_compute. reflexivity.
  - vm_compute. reflexivity.
  - exists m'. auto.
Defined.

(** ** Writing the file *)

(** X20.  [WriteToFile] at the end of a session writes the whole
    buffer: the file has [file_size] bytes, the length of the buffer
    after [Build]; a second [WriteToFile] changes nothing in the builder
    and writes the same bytes. *)
Theorem WriteToFile_writes_buffer DEBUG sz cs file b :
  sizeof_DB_FILE <= sz <= INT32_MAX ->
  session_in_bounds DEBUG (DBFileBuilder_new sz) cs ->
  (run_calls DEBUG cs ;;; WriteToFile) (DBFileBuilder_new sz) = (Ok file, b) ->
  Z.of_nat (length (links b)) < 2 ^ 16 ->
  file = data b /\
  file_size (Header file) = Z.of_nat (length file) /\
  WriteToFile b = (Ok file, b).
Proof.
  intros Hsz Hin Hrun Hn.
  destruct (session_file_container _ _ _ _ _ Hsz Hin Hrun Hn)
    as (Hfile & Hl & lo & Hc).
  pose proof (c_file_size _ _ _ _ Hc) as Hfs.
  split; [exact Hfile|]. split; [exact Hfs|].
  unfold WriteToFile, bind, get. rewrite (Build_linked b Hl).
  cbn [Header file_size]. subst file. rewrite Hfs. unfold data_size_of.
  rewrite Z.gtb_ltb, Z.ltb_irrefl. unfold ret.
  now rewrite Nat2Z.id, firstn_all.
Qed.

Lemma WriteToFile_writes_buffer_witness :
  let r := (run_calls false scenario_calls ;;; WriteToFile) (DBFileBuilder_new 112) in
  file_of r = data (snd r) /\
  file_size (Header (file_of r)) = 144 /\
  WriteToFile (snd r) = (Ok (file_of r), snd r).
Proof.
  intros r.
  destruct (WriteToFile_writes_buffer false 112 scenario_calls (file_of r) (snd r))
    as (H1 & H2 & H3).
  - vm_compute. split; discriminate.
  - vm_compute. intuition discriminate.
  - reflexivity.
  - vm_compute. reflexivity.
  - split; [exact H1|]. split; [rewrite H2; reflexivity|exact H3].
Defined.

(** ** The end of the loop *)

(** X21.  The loop over the link records ends after fewer than [2^16]
    turns on every memory, even one whose records overwrite the header:
    [links_count] is read as a 16-bit value at each turn and the index
    only grows.  In the model, any two amounts of fuel that reach
    [2^16] from the index give the same result. *)
Theorem link_loop_ends base links fuel fuel' i m :
  0 <= i ->
  2 ^ 16 <= i + Z.of_nat fuel ->
  2 ^ 16 <= i + Z.of_nat fuel' ->
  link_loop base fuel links i m = link_loop base fuel' links i m.
Proof. apply link_loop_fuel. Qed.

Lemma link_loop_ends_witness :
  link_loop 4096 max_links 28 0 header_only_container
  = link_loop 4096 (S max_links) 28 0 header_only_container.
Proof.
  pose proof Z_of_max_links as H.
  apply link_loop_ends; change (2 ^ 16) with 65536; lia.
Defined.
